(** * Crystal filter middleware: filter execution control and lifecycle hooks

    A shallow embedding of
      - [crystal_filter_middleware/crystal_filter_control.py]
        (class [CrystalFilterControl], method [execute_filters]), and
      - [crystal_filter_middleware/handlers/base.py]
        (class [CrystalBaseHandler], its [request] property and the three
        [apply_filters_on_*] hooks),
    followed by the properties of the specification proved over it.

    Conventions of the embedding.
      - A Python [dict] iterated by the code is an association list with
        pairwise distinct keys ([dict_wf]); the order of the list is the
        iteration order of the dict.  Dicts only read by key ([conf],
        [environ], [headers]) are [gmap]s.
      - A call that can raise returns an [Outcome]; code that mutates an
        object threads the object's state, and the state survives a raise
        (the mutation was done in place).
      - The execution engines (storlet gateway, native filter classes) are
        not part of these modules, nor are the tier-specific path grammar
        [_parse_vaco] and the account lookup: they are the fields of the
        interfaces [Engines] and [Tier].
      - The requests and responses are those of [swift.common.swob]: what
        an assignment to one of their attributes does beyond storing the
        value belongs to the embedding ([set_app_iter]).
      - Calls to the logger have no effect on control flow or on the objects
        modelled and are left out. *)

From Stdlib Require Import ZArith String Ascii List.
From stdpp Require Import base tactics option list sorting strings gmap pretty.

Open Scope string_scope.
Open Scope list_scope.

(** ** Python exceptions and outcomes *)

(** An exception instance: its class, the classes it inherits from, and its
    arguments. *)
Record PyExc := mkExc {
  exc_type : string;
  exc_bases : list string;
  exc_args : list string
}.

Global Instance PyExc_eq_dec : EqDecision PyExc.
Proof. solve_decision. Defined.

(** [isinstance(e, cls)] for an exception instance: what [except cls] tests. *)
Definition isinstance_exc (e : PyExc) (cls : string) : bool :=
  bool_decide (cls = exc_type e ∨ cls ∈ exc_bases e).

Definition ValueError (msg : string) : PyExc :=
  mkExc "ValueError" ["StandardError"; "Exception"] [msg].

(** [class NotCrystalRequest(Exception): pass], raised without arguments. *)
Definition NotCrystalRequest : PyExc :=
  mkExc "NotCrystalRequest" ["Exception"] [].

Inductive Outcome (A : Type) : Type :=
  | Returned (a : A)
  | Raised (e : PyExc).
Arguments Returned {A} a.
Arguments Raised {A} e.

(** A computation over a mutable state [S] that returns or raises; the state
    is kept in both cases. *)
Definition Py (S A : Type) : Type := S → S * Outcome A.

Definition py_ret {S A} (a : A) : Py S A := λ s, (s, Returned a).
Definition py_raise {S A} (e : PyExc) : Py S A := λ s, (s, Raised e).
Definition py_bind {S A B} (c : Py S A) (k : A → Py S B) : Py S B :=
  λ s, match c s with
       | (s', Returned a) => k a s'
       | (s', Raised e) => (s', Raised e)
       end.
Definition py_get {S} : Py S S := λ s, (s, Returned s).
Definition py_modify {S} (f : S → S) : Py S unit := λ s, (f s, Returned tt).

Notation "'let!' x ':=' c 'in' k" := (py_bind c (λ x, k))
  (at level 10, x pattern, c at level 100, k at level 200).
Notation "c ';;!' k" := (py_bind c (λ _, k))
  (at level 100, k at level 200, right associativity).

(** [for x in xs: body(x, acc)], the loop variables being threaded in [acc];
    a raise in the body leaves the loop. *)
Fixpoint py_for {S A X} (xs : list X) (body : X → A → Py S A) (acc : A)
  : Py S A :=
  match xs with
  | [] => py_ret acc
  | x :: xs' => let! acc' := body x acc in py_for xs' body acc'
  end.

(** ** Dictionary keys and their order *)

(** The keys of a filter execution list: Python integers or strings. *)
Inductive Key : Type :=
  | KInt (n : Z)
  | KStr (s : string).

Global Instance Key_eq_dec : EqDecision Key.
Proof. solve_decision. Defined.

(** [a <= b] as Python 2 compares the keys: integers by value, strings
    lexicographically, and an integer below every string. *)
Definition key_leb (a b : Key) : bool :=
  match a, b with
  | KInt x, KInt y => (x <=? y)%Z
  | KInt _, KStr _ => true
  | KStr _, KInt _ => false
  | KStr s, KStr t => String.leb s t
  end.

Definition key_le (a b : Key) : Prop := key_leb a b.

Global Instance key_le_dec : RelDecision key_le.
Proof. intros a b. unfold key_le. apply _. Defined.

(** ** Dicts that the code iterates *)

Section Dict.
Context {K V : Type} `{EqDecision K}.

Definition dict_keys (d : list (K * V)) : list K := d.*1.

(** [d[k]]: [None] stands for [KeyError]. *)
Fixpoint dict_get (k : K) (d : list (K * V)) : option V :=
  match d with
  | [] => None
  | (k', v) :: d' => if decide (k = k') then Some v else dict_get k d'
  end.

(** [d[k] = v]. *)
Fixpoint dict_set (k : K) (v : V) (d : list (K * V)) : list (K * V) :=
  match d with
  | [] => [(k, v)]
  | (k', v') :: d' =>
      if decide (k = k') then (k, v) :: d' else (k', v') :: dict_set k v d'
  end.

(** Truth value of a dict: [if d:]. *)
Definition dict_truthy (d : list (K * V)) : bool :=
  match d with [] => false | _ :: _ => true end.

(** What every Python dict satisfies: a key occurs once. *)
Definition dict_wf (d : list (K * V)) : Prop := NoDup (dict_keys d).
End Dict.

(** [sorted(d)] for a dict [d]: the keys in ascending order. *)
Definition sorted (ks : list Key) : list Key := merge_sort key_le ks.

(** ** Filters, requests and responses *)

(** [filter_data]: the dict describing one filter.  The code reads it at the
    keys ["execution_server"], ["type"], ["main"] and ["when"]; it is a record
    of these four strings. *)
Record FilterData := mkFilter {
  execution_server : string;
  type : string;
  main : string;
  when : string
}.

Global Instance FilterData_eq_dec : EqDecision FilterData.
Proof. solve_decision. Defined.

#[local] Set Warnings "-register-all".

(** A JSON document, as far as a dict of filters needs it. *)
Inductive JSON : Type :=
  | JStr (s : string)
  | JObj (members : list (string * JSON)).

(** The value of a header: a plain string, or the text [json.dumps] returns,
    kept as the document it renders. *)
Inductive HeaderVal : Type :=
  | HText (s : string)
  | HJson (j : JSON).

(** A string or [None]. *)
Abbreviation PyStr := (option string).

Section Objects.
(** Body streams (file-like objects and iterators) and the WSGI
    application handle are opaque. *)
Context {Stream App : Type}.

(** A value stored in the WSGI environment. *)
Inductive EnvVal : Type :=
  | EnvStr (s : string)
  | EnvBody (b : option Stream).

(** The state of a [swob] request or response object, as far as the code
    reads or writes it.  [is_request] is [isinstance(req_resp, Request)];
    [req_method] is the attribute [method].  [environ] and [headers] are the
    two mappings the code addresses by these names; on a [swob] request the
    headers are a view of the environment under [HTTP_] names, which is why
    the properties below speak of single entries ([wsgi.input],
    [CONTENT_LENGTH], the two headers written) and not of a mapping as a
    whole.  Header names are matched by [swob] without regard to case; a
    header is kept here under the spelling the code writes, and
    [Content-Length], which [swob] itself writes on a response, under that
    one. *)
Record ReqResp := mkReqResp {
  is_request : bool;
  req_method : string;
  environ : gmap string EnvVal;
  headers : gmap string HeaderVal;
  app_iter : option Stream
}.

(** [requets_data], the dict built at the head of [execute_filters]. *)
Record RequestData := mkRequestData {
  rd_app : App;
  rd_api_version : PyStr;
  rd_account : PyStr;
  rd_container : PyStr;
  rd_object : PyStr;
  rd_method : string
}.
End Objects.
Arguments EnvVal : clear implicits.
Arguments ReqResp : clear implicits.
Arguments RequestData : clear implicits.

(** ** The collaborators of the controller *)

(** What the controller calls but does not define: the storlet gateway
    ([crystal_filter_storlet_gateway.SDSGatewayStorlet] and its
    [execute_storlet]) and the native filter classes (found by [__import__]
    and [getattr], then instantiated and run through [execute]).  Each call
    may raise and may mutate the request or response it is given, but leaves
    the object the instance of the class it is.  The streams they hand back
    are lists or tuples of strings, or other iterables: [list_length b] is
    the number of bytes of all the strings of [b] when [b] is a list or a
    tuple ([sum(map(len, b))]), and [None] when it is neither. *)
Class Engines (Stream App : Type) := {
  Gateway : Type;
  NativeFilter : Type;
  list_length : Stream → option N;
  SDSGatewayStorlet :
    gmap string string → RequestData App → Outcome Gateway;
  execute_storlet :
    Gateway → ReqResp Stream → FilterData → option Stream →
    ReqResp Stream * Outcome (option Stream);
  native_class :
    string → string → FilterData → gmap string string → Outcome NativeFilter;
  native_execute :
    NativeFilter → ReqResp Stream → option Stream → RequestData App →
    ReqResp Stream * Outcome (option Stream);
  execute_storlet_class gw o fd it :
    is_request (execute_storlet gw o fd it).1 = is_request o;
  native_execute_class nf o it rd :
    is_request (native_execute nf o it rd).1 = is_request o
}.

Inductive EngineKind : Type := Storlet | Native.

(** One call of an execution engine, as an observer of the controller sees
    it: the engine, the filter and the stream handed over, and what the call
    gave back. *)
Record Invocation {Stream : Type} := mkInvocation {
  inv_engine : EngineKind;
  inv_filter : FilterData;
  inv_input : option Stream;
  inv_result : Outcome (option Stream)
}.
Arguments Invocation : clear implicits.
Arguments mkInvocation {Stream} _ _ _ _.

(** [s.rsplit('.', 1)] unpacked into two names: [None] when [s] has no dot
    (the unpacking then raises [ValueError]). *)
Fixpoint rsplit_dot (s : string) : option (string * string) :=
  match s with
  | EmptyString => None
  | String c s' =>
      match rsplit_dot s' with
      | Some (m, cl) => Some (String c m, cl)
      | None => if Ascii.eqb c "."%char then Some (EmptyString, s') else None
      end
  end.

(** [PACKAGE_NAME = __name__.split('.')[0]]. *)
Definition PACKAGE_NAME : string := "crystal_filter_middleware".

(** [json.dumps(on_other_server)]: a JSON object whose member names are the
    keys as strings (an integer key is written in decimal) and whose values
    are the filter dicts. *)
Definition json_key (k : Key) : string :=
  match k with
  | KInt n => pretty n
  | KStr s => s
  end.

Definition json_of_filter (fd : FilterData) : JSON :=
  JObj [("execution_server", JStr (execution_server fd));
        ("type", JStr (type fd));
        ("main", JStr (main fd));
        ("when", JStr (when fd))].

Definition json_dumps (d : list (Key * FilterData)) : JSON :=
  JObj (map (λ kv, (json_key kv.1, json_of_filter kv.2)) d).

(** ** [crystal_filter_control.py] *)

Section Controller.
Context {Stream App : Type} `{E : Engines Stream App}.

(** The attributes [__init__] sets (the logger apart).  The class is a
    [Singleton]: every construction after the first returns the first
    instance; the controller in use is an argument below. *)
Record CrystalFilterControl := mkControl {
  conf : gmap string string;
  server : PyStr
}.

Definition CrystalFilterControl_init (conf : gmap string string)
  : CrystalFilterControl :=
  {| conf := conf; server := conf !! "execution_server" |}.

(** What a call of [execute_filters] acts on: the object [req_resp], mutated
    in place, and the engine invocations made so far, oldest first. *)
Record ExecState := mkExecState {
  req_resp : ReqResp Stream;
  invoked : list (Invocation Stream)
}.

(** The local variables of [execute_filters] that the loop assigns;
    [cur_app_iter] is the local [app_iter]. *)
Record Locals := mkLocals {
  on_other_server : list (Key * FilterData);
  filter_executed : bool;
  storlet_gw : option Gateway;
  cur_app_iter : option Stream
}.

Definition py_lift {S A} (r : Outcome A) : Py S A := λ s, (s, r).

(** A call of an engine method on [req_resp], run and noted. *)
Definition call_engine (kind : EngineKind) (filter_data : FilterData)
    (input : option Stream)
    (f : ReqResp Stream → ReqResp Stream * Outcome (option Stream))
  : Py ExecState (option Stream) :=
  λ st, let (o', r) := f (req_resp st) in
        ({| req_resp := o';
            invoked := invoked st
                         ++ [mkInvocation kind filter_data input r] |}, r).

Definition _setup_storlet_gateway (self : CrystalFilterControl)
    (request_data : RequestData App) : Outcome Gateway :=
  SDSGatewayStorlet (conf self) request_data.

Definition _load_native_filter (self : CrystalFilterControl)
    (filter_data : FilterData) : Outcome NativeFilter :=
  match rsplit_dot (main filter_data) with
  | None => Raised (ValueError "need more than 1 value to unpack")
  | Some (modulename, classname) =>
      native_class (PACKAGE_NAME ++ "." ++ modulename) classname
                   filter_data (conf self)
  end%string.

Definition KeyError (k : Key) : PyExc :=
  mkExc "KeyError" ["LookupError"; "StandardError"; "Exception"]
        [json_key k].

(** The body of [for key in sorted(filter_exec_list)]. *)
Definition filter_step (self : CrystalFilterControl)
    (requets_data : RequestData App)
    (filter_exec_list : list (Key * FilterData))
    (key : Key) (loc : Locals) : Py ExecState Locals :=
  match dict_get key filter_exec_list with
  | None => py_raise (KeyError key)
  | Some filter_data =>
      if bool_decide (Some (execution_server filter_data) = server self)
      then
        if bool_decide (type filter_data = "storlet")
        then
          let! gw := match storlet_gw loc with
                     | Some gw => py_ret gw
                     | None =>
                         py_lift (_setup_storlet_gateway self requets_data)
                     end in
          let! out := call_engine Storlet filter_data (cur_app_iter loc)
                        (λ o, execute_storlet gw o filter_data
                                              (cur_app_iter loc)) in
          py_ret {| on_other_server := on_other_server loc;
                    filter_executed := true;
                    storlet_gw := Some gw;
                    cur_app_iter := out |}
        else
          let! native_filter :=
            py_lift (_load_native_filter self filter_data) in
          let! out := call_engine Native filter_data (cur_app_iter loc)
                        (λ o, native_execute native_filter o
                                             (cur_app_iter loc)
                                             requets_data) in
          py_ret {| on_other_server := on_other_server loc;
                    filter_executed := true;
                    storlet_gw := storlet_gw loc;
                    cur_app_iter := out |}
      else
        py_ret {| on_other_server :=
                    dict_set key filter_data (on_other_server loc);
                  filter_executed := filter_executed loc;
                  storlet_gw := storlet_gw loc;
                  cur_app_iter := cur_app_iter loc |}
  end.

Definition set_header (name : string) (v : HeaderVal)
    (o : ReqResp Stream) : ReqResp Stream :=
  {| is_request := is_request o; req_method := req_method o;
     environ := environ o;
     headers := <[name := v]> (headers o); app_iter := app_iter o |}.

Definition set_environ (name : string) (v : EnvVal Stream)
    (o : ReqResp Stream) : ReqResp Stream :=
  {| is_request := is_request o; req_method := req_method o;
     environ := <[name := v]> (environ o);
     headers := headers o; app_iter := app_iter o |}.

(** [resp.app_iter = b] on a [swob] response.  The attribute is a property
    whose setter keeps the content length in step with the body:
    [[
      if isinstance(value, (list, tuple)):
          self.content_length = sum(map(len, value))
      elif value is not None:
          self.content_length = None
          self._body = None
      self._app_iter = value
    ]]
    and [content_length] is the header [Content-Length], written as a
    decimal string, or removed when it is set to [None]. *)
Definition set_app_iter (b : option Stream)
    (o : ReqResp Stream) : ReqResp Stream :=
  {| is_request := is_request o; req_method := req_method o;
     environ := environ o;
     headers := match b with
                | None => headers o
                | Some value =>
                    match list_length value with
                    | Some n =>
                        <["Content-Length" := HText (pretty n)]> (headers o)
                    | None => delete "Content-Length" (headers o)
                    end
                end;
     app_iter := b |}.

Definition on_req_resp (f : ReqResp Stream → ReqResp Stream)
  : Py ExecState unit :=
  py_modify (λ st, {| req_resp := f (req_resp st);
                      invoked := invoked st |}).

Definition initial_locals : Locals :=
  {| on_other_server := []; filter_executed := false;
     storlet_gw := None; cur_app_iter := None |}.

(** The loop of [execute_filters], lines 54 to 78. *)
Definition execute_filters_loop (self : CrystalFilterControl)
    (filter_exec_list : list (Key * FilterData))
    (requets_data : RequestData App) : Py ExecState Locals :=
  py_for (sorted (dict_keys filter_exec_list))
         (filter_step self requets_data filter_exec_list)
         initial_locals.

(** Lines 80 to 87: the delegation header and the new body. *)
Definition execute_filters_finish (loc : Locals) : Py ExecState unit :=
  (if dict_truthy (on_other_server loc)
   then on_req_resp (set_header "CRYSTAL-FILTERS"
                       (HJson (json_dumps (on_other_server loc))))
   else py_ret tt) ;;!
  (if filter_executed loc
   then on_req_resp (λ o, if is_request o
                          then set_environ "wsgi.input"
                                 (EnvBody (cur_app_iter loc)) o
                          else set_app_iter (cur_app_iter loc) o)
   else py_ret tt).

(** [execute_filters(self, req_resp, filter_exec_list, app, api_version,
    account, container, obj, method)].  The argument [req_resp] is the
    object of the state; the value returned is that same object. *)
Definition execute_filters (self : CrystalFilterControl)
    (filter_exec_list : list (Key * FilterData)) (app : App)
    (api_version account container obj : PyStr) (method : string)
  : Py ExecState unit :=
  let requets_data :=
    {| rd_app := app; rd_api_version := api_version;
       rd_account := account; rd_container := container;
       rd_object := obj; rd_method := method |} in
  let! loc := execute_filters_loop self filter_exec_list requets_data in
  execute_filters_finish loc.
End Controller.

(** ** [handlers/base.py] *)

(** What the base handler calls but does not define: [_parse_vaco], which
    the proxy and object handlers override with the path grammar of their
    tier (it reads [self.request] and raises [ValueError] on a path it does
    not accept), and Swift's [get_account_info] (here: the ['meta'] dict of
    its result) and [config_true_value]. *)
Class Tier (Stream App : Type) := {
  _parse_vaco : ReqResp Stream → Outcome (PyStr * PyStr * PyStr * PyStr);
  get_account_info :
    gmap string (EnvVal Stream) → App → Outcome (gmap string string);
  config_true_value : string → bool
}.

(** A Python value as an [and] chain of [is_crystal_valid_request] can return
    it: a boolean, or the object name (a string or [None]). *)
Inductive PyValue : Type :=
  | PyBool (b : bool)
  | PyString (s : PyStr).

(** The truth value of a Python value. *)
Definition truthy (v : PyValue) : bool :=
  match v with
  | PyBool b => b
  | PyString None => false
  | PyString (Some s) => negb (String.eqb s "")
  end.

(** [a and b], [b] being evaluated without effect. *)
Definition py_and (a b : PyValue) : PyValue := if truthy a then b else a.

(** [s.lower()] on the ASCII letters. *)
Definition lower_ascii (c : ascii) : ascii :=
  let n := N_of_ascii c in
  if ((65 <=? n) && (n <=? 90))%N then ascii_of_N (n + 32) else c.

Fixpoint lower (s : string) : string :=
  match s with
  | EmptyString => EmptyString
  | String c s' => String (lower_ascii c) (lower s')
  end.

Section Handler.
Context {Stream App : Type} `{E : Engines Stream App} `{T : Tier Stream App}.

(** The attributes of a handler that the methods below use.  [h_server]
    and [h_conf] are [self.server] and [self.conf]; [h_method] is
    [self.method]. *)
Record CrystalBaseHandler := mkHandler {
  _request : ReqResp Stream;
  _api_version : PyStr;
  _account : PyStr;
  _container : PyStr;
  _obj : PyStr;
  h_server : PyStr;
  sds_containers : list PyStr;
  app : App;
  h_conf : gmap string string;
  filter_control : CrystalFilterControl;
  h_method : string
}.

Definition with_request (request : ReqResp Stream)
    (self : CrystalBaseHandler) : CrystalBaseHandler :=
  {| _request := request;
     _api_version := _api_version self; _account := _account self;
     _container := _container self; _obj := _obj self;
     h_server := h_server self; sds_containers := sds_containers self;
     app := app self; h_conf := h_conf self;
     filter_control := filter_control self; h_method := h_method self |}.

Definition with_vaco (vaco : PyStr * PyStr * PyStr * PyStr)
    (self : CrystalBaseHandler) : CrystalBaseHandler :=
  let '(v, a, c, o) := vaco in
  {| _request := _request self;
     _api_version := v; _account := a; _container := c; _obj := o;
     h_server := h_server self; sds_containers := sds_containers self;
     app := app self; h_conf := h_conf self;
     filter_control := filter_control self; h_method := h_method self |}.

(** The properties [api_version], [account], [container] and [obj]. *)
Definition api_version (self : CrystalBaseHandler) := _api_version self.
Definition account (self : CrystalBaseHandler) := _account self.
Definition container (self : CrystalBaseHandler) := _container self.
Definition obj (self : CrystalBaseHandler) := _obj self.

(** [_extract_vaco]: the four attributes are assigned from one tuple;
    when [_parse_vaco] raises, none is. *)
Definition _extract_vaco : Py CrystalBaseHandler unit :=
  λ self, match _parse_vaco (_request self) with
          | Returned vaco => (with_vaco vaco self, Returned tt)
          | Raised e => (self, Raised e)
          end.

(** [try: c  except ValueError: raise NotCrystalRequest()]. *)
Definition except_ValueError {S A} (c : Py S A) : Py S A :=
  λ s, match c s with
       | (s', Raised e) =>
           if isinstance_exc e "ValueError"
           then (s', Raised NotCrystalRequest)
           else (s', Raised e)
       | r => r
       end.

(** The setter of the property [request]: [self.request = request]. *)
Definition request_setter (request : ReqResp Stream)
  : Py CrystalBaseHandler unit :=
  py_modify (with_request request) ;;!
  except_ValueError _extract_vaco.

(** The getter of the property [request]. *)
Definition request_getter (self : CrystalBaseHandler) : ReqResp Stream :=
  _request self.

(** [__init__(self, request, conf, app, logger, filter_control)], as far as
    the attributes above go.  The first statement is [self.request =
    request], run here on the instance with its other attributes already
    in place (the setter reads none of them); when it raises, no handler
    comes into being. *)
Definition CrystalBaseHandler_init (request : ReqResp Stream)
    (conf : gmap string string) (app : App)
    (filter_control : CrystalFilterControl)
  : Outcome CrystalBaseHandler :=
  let blank :=
    {| _request := request;
       _api_version := None; _account := None;
       _container := None; _obj := None;
       h_server := conf !! "execution_server";
       sds_containers :=
         [conf !! "storlet_container";
          conf !! "storlet_dependency";
          Some (default "docker_images" (conf !! "storlet_images"))];
       app := app; h_conf := conf;
       filter_control := filter_control;
       h_method := lower (req_method request) |} in
  match request_setter request blank with
  | (self, Returned _) => Returned self
  | (_, Raised e) => Raised e
  end.

(** [is_account_storlet_enabled]. *)
Definition is_account_storlet_enabled (self : CrystalBaseHandler)
  : Outcome bool :=
  match get_account_info (environ (request_getter self)) (app self) with
  | Raised e => Raised e
  | Returned account_meta =>
      let storlets_enabled :=
        default "False" (account_meta !! "storlet-enabled") in
      if negb (config_true_value storlets_enabled)
      then Returned false
      else Returned true
  end.

(** The property [is_crystal_valid_request]. *)
Definition is_crystal_valid_request (self : CrystalBaseHandler)
  : Outcome PyValue :=
  match (if bool_decide (h_server self = Some "proxy")
         then is_account_storlet_enabled self
         else Returned true) with
  | Raised e => Raised e
  | Returned storlet_enabled =>
      let crystal_container :=
        bool_decide (container self ∈ sds_containers self) in
      Returned (py_and (py_and (PyBool (negb crystal_container))
                               (PyString (obj self)))
                       (PyBool storlet_enabled))
  end.

(** What a hook acts on: the handler, and the engine invocations made so
    far.  The request the handler holds is part of the handler. *)
Record HookState := mkHookState {
  this : CrystalBaseHandler;
  engine_calls : list (Invocation Stream)
}.

(** [self.filter_control.execute_filters(target, filter_list, self.app,
    self._api_version, self.account, self.container, self.obj,
    self.method)]: the new state of [target], the invocations, and the
    outcome (the value returned is [target] itself). *)
Definition call_execute_filters (self : CrystalBaseHandler)
    (target : ReqResp Stream) (filter_list : list (Key * FilterData))
    (calls : list (Invocation Stream))
  : ReqResp Stream * list (Invocation Stream) * Outcome unit :=
  let (st, r) :=
    execute_filters (filter_control self) filter_list (app self)
                    (_api_version self) (account self) (container self)
                    (obj self) (h_method self)
                    {| req_resp := target; invoked := calls |} in
  (req_resp st, invoked st, r).

(** [_call_filter_control_on_put(filter_list)].  The request is mutated in
    place, so the handler sees its new state whatever the outcome. *)
Definition _call_filter_control_on_put
    (filter_list : list (Key * FilterData)) : Py HookState unit :=
  λ hs, let '(o, calls, r) :=
          call_execute_filters (this hs) (request_getter (this hs))
                               filter_list (engine_calls hs) in
        ({| this := with_request o (this hs); engine_calls := calls |}, r).

(** [_call_filter_control_on_get(self.request, filter_list)]. *)
Definition _call_filter_control_on_get_request
    (filter_list : list (Key * FilterData)) : Py HookState unit :=
  λ hs, let '(o, calls, r) :=
          call_execute_filters (this hs) (request_getter (this hs))
                               filter_list (engine_calls hs) in
        ({| this := with_request o (this hs); engine_calls := calls |}, r).

(** [_call_filter_control_on_get(resp, filter_list)], the response being
    the second component of the state. *)
Definition _call_filter_control_on_get_response
    (filter_list : list (Key * FilterData))
  : Py (HookState * ReqResp Stream) unit :=
  λ '(hs, resp),
    let '(o, calls, r) :=
      call_execute_filters (this hs) resp filter_list (engine_calls hs) in
    (({| this := this hs; engine_calls := calls |}, o), r).

(** The loop at the head of each hook:
    [for key, filter_data in filter_list.items():
       if filter_data['when'] == point: filtered_filter_list[key] = filter_data]. *)
Definition filtered_filter_list (point : string)
    (filter_list : list (Key * FilterData)) : list (Key * FilterData) :=
  foldl (λ acc kv, if bool_decide (when kv.2 = point)
                   then dict_set kv.1 kv.2 acc else acc)
        [] filter_list.

Definition on_request (f : ReqResp Stream → ReqResp Stream)
  : Py HookState unit :=
  py_modify (λ hs, {| this := with_request (f (_request (this hs)))
                                           (this hs);
                      engine_calls := engine_calls hs |}).

(** [self.request = value], inside a hook. *)
Definition assign_request (value : ReqResp Stream) : Py HookState unit :=
  λ hs, let (self', r) := request_setter value (this hs) in
        ({| this := self'; engine_calls := engine_calls hs |}, r).

(** [environ.pop(name)] under [if name in environ]. *)
Definition pop_environ (name : string) (o : ReqResp Stream)
  : ReqResp Stream :=
  {| is_request := is_request o; req_method := req_method o;
     environ := delete name (environ o);
     headers := headers o; app_iter := app_iter o |}.

(** [apply_filters_on_pre_get(filter_list)]. *)
Definition apply_filters_on_pre_get (filter_list : list (Key * FilterData))
  : Py HookState unit :=
  let filtered := filtered_filter_list "on_pre_get" filter_list in
  if dict_truthy filtered
  then _call_filter_control_on_get_request filtered
  else py_ret tt.

(** [apply_filters_on_post_get(resp, filter_list)]: [resp] is the second
    component of the state, and the value returned is that object. *)
Definition apply_filters_on_post_get
    (filter_list : list (Key * FilterData))
  : Py (HookState * ReqResp Stream) unit :=
  let filtered := filtered_filter_list "on_post_get" filter_list in
  if dict_truthy filtered
  then _call_filter_control_on_get_response filtered
  else py_ret tt.

(** [apply_filters_on_pre_put(filter_list)]. *)
Definition apply_filters_on_pre_put (filter_list : list (Key * FilterData))
  : Py HookState unit :=
  let filtered := filtered_filter_list "on_pre_put" filter_list in
  if dict_truthy filtered
  then
    _call_filter_control_on_put filtered ;;!
    (let! hs := py_get in assign_request (request_getter (this hs))) ;;!
    (let! hs := py_get in
     if bool_decide (is_Some (environ (request_getter (this hs))
                                !! "CONTENT_LENGTH"))
     then on_request (pop_environ "CONTENT_LENGTH")
     else py_ret tt) ;;!
    on_request (set_header "Transfer-Encoding" (HText "chunked"))
  else py_ret tt.
End Handler.
Arguments CrystalBaseHandler : clear implicits.
Arguments HookState : clear implicits.

(** ** The peer's side of the delegation header *)


(** Modelled from the spec: the value of a decimal digit, a step of the
    peer's reading of a member name ([key_of_json] below). *)
Definition digit_value (c : ascii) : option N :=
  let n := N_of_ascii c in
  if ((48 <=? n) && (n <=? 57))%N then Some (n - 48)%N else None.

(** Modelled from the spec: the number a string of decimal digits writes,
    [acc] being the number read so far; a step of [key_of_json]. *)
Fixpoint read_digits (s : string) (acc : N) : option N :=
  match s with
  | EmptyString => Some acc
  | String c s' =>
      match digit_value c with
      | Some v => read_digits s' (acc * 10 + v)%N
      | None => None
      end
  end.

(** Modelled from the spec: the integer a string is the decimal writing of,
    if it is one ([5] for ["5"], [-12] for ["-12"]; none for [""], ["05"],
    ["+5"] or ["5.0"]); a step of [key_of_json]. *)
Definition integer_of_string (s : string) : option Z :=
  let read :=
    match s with
    | EmptyString => None
    | String c s' =>
        if Ascii.eqb c "-"
        then Z.opp ∘ Z.of_N <$> read_digits s' 0
        else Z.of_N <$> read_digits s 0
    end in
  match read with
  | Some n => if decide (pretty n = s) then Some n else None
  | None => None
  end.




(** The error of the spec's taxonomy, in the spec's words: an exception of
    class [FilterExecutionError] that carries the entry point of the failing
    filter. *)
Definition FilterExecutionError_carrying (entry_point : string) (e : PyExc)
  : Prop :=
  isinstance_exc e "FilterExecutionError" ∧ entry_point ∈ exc_args e.

Global Instance FilterExecutionError_carrying_dec entry_point e :
  Decision (FilterExecutionError_carrying entry_point e).
Proof. unfold FilterExecutionError_carrying. apply _. Defined.

(** ** A tier to run the code on

    Engines that wrap the name of the filter around the stream they are
    given (and refuse to run a filter whose entry point starts with
    [broken]), and a path grammar that accepts [/v/a/c/o] with four nonempty
    components.  They instantiate the interfaces in the examples below. *)
Module Sample.
Definition Stream : Type := string.
Definition App : Type := unit.

Definition RuntimeError (msg : string) : PyExc :=
  mkExc "RuntimeError" ["StandardError"; "Exception"] [msg].

Definition engine (fd : FilterData) (o : ReqResp Stream)
    (it : option Stream) : ReqResp Stream * Outcome (option Stream) :=
  if String.prefix "broken" (main fd)
  then (o, Raised (RuntimeError "sandbox exited"))
  else (o, Returned (Some (main fd ++ "(" ++ default "body" it ++ ")")%string)).

#[refine] Global Instance engines : Engines Stream App := {|
  Gateway := unit;
  NativeFilter := FilterData;
  list_length _ := None;
  SDSGatewayStorlet _ _ := Returned tt;
  execute_storlet _ o fd it := engine fd o it;
  native_class _ _ fd _ := Returned fd;
  native_execute nf o it _ := engine nf o it
|}.
Proof.
  - intros _ o fd it. unfold engine. by destruct (String.prefix _ _).
  - intros nf o it _. unfold engine. by destruct (String.prefix _ _).
Defined.

Fixpoint split_on (sep : ascii) (s : string) : list string :=
  match s with
  | EmptyString => [EmptyString]
  | String c s' =>
      match split_on sep s' with
      | [] => [String c EmptyString]
      | w :: ws =>
          if Ascii.eqb c sep then EmptyString :: w :: ws
          else String c w :: ws
      end
  end.

Definition parse_path (o : ReqResp Stream)
  : Outcome (PyStr * PyStr * PyStr * PyStr) :=
  match environ o !! "PATH_INFO" with
  | Some (EnvStr path) =>
      match split_on "/" path with
      | [e; v; a; c; ob] =>
          if forallb (λ w, negb (String.eqb w "")) [v; a; c; ob]
             && String.eqb e ""
          then Returned (Some v, Some a, Some c, Some ob)
          else Raised (ValueError ("Invalid path: " ++ path))
      | _ => Raised (ValueError ("Invalid path: " ++ path))
      end
  | _ => Raised (mkExc "KeyError" ["LookupError"; "StandardError";
                                   "Exception"] ["PATH_INFO"])
  end%string.

Global Instance tier : Tier Stream App := {|
  _parse_vaco := parse_path;
  get_account_info _ _ := Returned {[ "storlet-enabled" := "True" ]};
  config_true_value v :=
    bool_decide (lower v ∈ ["true"; "1"; "yes"; "on"; "t"; "y"])
|}.

Definition compress : FilterData :=
  mkFilter "proxy" "storlet" "compress-1.0.jar" "on_pre_put".
Definition encrypt : FilterData :=
  mkFilter "proxy" "native" "crypto.aes.Encrypt" "on_pre_put".
Definition audit : FilterData :=
  mkFilter "object" "storlet" "audit-1.0.jar" "on_pre_put".
Definition broken : FilterData :=
  mkFilter "proxy" "storlet" "broken-1.0.jar" "on_pre_put".

Definition proxy_conf : gmap string string :=
  {[ "execution_server" := "proxy";
     "storlet_container" := "storlet";
     "storlet_dependency" := "dependency" ]}.

Definition proxy_control : CrystalFilterControl :=
  CrystalFilterControl_init proxy_conf.

Definition put_request (path : string) : ReqResp Stream :=
  {| is_request := true; req_method := "PUT";
     environ := {[ "PATH_INFO" := EnvStr path;
                   "CONTENT_LENGTH" := EnvStr "1024";
                   "wsgi.input" := EnvBody (Some "body") ]};
     headers := ∅; app_iter := None |}.

Definition get_response : ReqResp Stream :=
  {| is_request := false; req_method := "GET";
     environ := ∅; headers := ∅; app_iter := Some "body" |}.

(** A PUT through the proxy with two filters of the proxy and one of the
    object tier, the dict being iterated in the order 3, 1, 2. *)
Definition scenario : list (Key * FilterData) :=
  [(KInt 3, audit); (KInt 1, compress); (KInt 2, encrypt)].

Definition st0 : ExecState :=
  {| req_resp := put_request "/v1/AUTH_a/c/o"; invoked := [] |}.

Definition run (d : list (Key * FilterData)) (st : ExecState)
  : ExecState * Outcome unit :=
  execute_filters proxy_control d tt
                  (Some "v1") (Some "AUTH_a") (Some "c") (Some "o") "put" st.

(** The same filters, the first of them failing in its sandbox. *)
Definition failing_scenario : list (Key * FilterData) :=
  [(KInt 1, compress); (KInt 0, broken); (KInt 2, audit)].

Definition broken_call : Invocation Stream :=
  mkInvocation Storlet broken None (Raised (RuntimeError "sandbox exited")).

(** The handler [__init__] builds for a PUT of [/v1/AUTH_a/c/o] on the
    proxy. *)
Definition handler0 : CrystalBaseHandler Stream App :=
  {| _request := put_request "/v1/AUTH_a/c/o";
     _api_version := Some "v1"; _account := Some "AUTH_a";
     _container := Some "c"; _obj := Some "o";
     h_server := Some "proxy";
     sds_containers := [Some "storlet"; Some "dependency";
                        Some "docker_images"];
     app := tt; h_conf := proxy_conf;
     filter_control := proxy_control;
     h_method := "put" |}.

Definition hs0 : HookState Stream App :=
  {| this := handler0; engine_calls := [] |}.

(** A handler for a PUT into the container of the storlet binaries. *)
Definition reserved_handler : CrystalBaseHandler Stream App :=
  with_vaco (Some "v1", Some "AUTH_a", Some "storlet", Some "f-1.0.jar")
            handler0.

(** A filter registered for none of the three points. *)
Definition idle : FilterData :=
  mkFilter "proxy" "storlet" "idle-1.0.jar" "on_post_put".
End Sample.

(** ** Notions the properties are stated with *)

(** The filter is owned by the tier of the controller:
    [filter_data["execution_server"] == self.server]. *)
Definition is_local (self : CrystalFilterControl) (fd : FilterData) : bool :=
  bool_decide (Some (execution_server fd) = server self).

(** The entries of a dict at the keys [ks], in the order of [ks]. *)
Definition items_at (d : list (Key * FilterData)) (ks : list Key)
  : list (Key * FilterData) :=
  omap (λ k, pair k <$> dict_get k d) ks.

(** The entries of a dict in ascending order of the keys. *)
Definition sorted_items (d : list (Key * FilterData))
  : list (Key * FilterData) :=
  items_at d (sorted (dict_keys d)).

(** The local-tier subset of a filter set and the rest of it, both in
    ascending order of the keys. *)
Definition local_part (self : CrystalFilterControl)
    (d : list (Key * FilterData)) : list (Key * FilterData) :=
  filter (λ kv, is_local self kv.2) (sorted_items d).

Definition other_part (self : CrystalFilterControl)
    (d : list (Key * FilterData)) : list (Key * FilterData) :=
  filter (λ kv, ¬ is_local self kv.2) (sorted_items d).

(** Strictly ascending keys. *)
Definition key_lt (a b : Key) : Prop := key_le a b ∧ a ≠ b.

Section Chains.
Context {Stream App : Type} `{E : Engines Stream App}.

(** The two writes at the end of [execute_filters], as functions of what
    was delegated and of what was executed. *)
Definition with_delegation (delegated : list (Key * FilterData))
    (o : ReqResp Stream) : ReqResp Stream :=
  if dict_truthy delegated
  then set_header "CRYSTAL-FILTERS" (HJson (json_dumps delegated)) o
  else o.

Definition with_body (executed : bool) (stream : option Stream)
    (o : ReqResp Stream) : ReqResp Stream :=
  if executed
  then if is_request o
       then set_environ "wsgi.input" (EnvBody stream) o
       else set_app_iter stream o
  else o.

(** A sequence of engine calls composes the streams: the first call is
    given [input], each later call the stream the call before it
    returned, and a call that raised is the last one. *)
Fixpoint chained (input : option Stream) (calls : list (Invocation Stream))
  : Prop :=
  match calls with
  | [] => True
  | i :: rest =>
      inv_input i = input ∧
      match inv_result i with
      | Returned out => chained out rest
      | Raised _ => rest = []
      end
  end.

(** The stream the last call of a sequence returned ([input] when there is
    no call). *)
Definition final_stream (input : option Stream)
    (calls : list (Invocation Stream)) : option Stream :=
  foldl (λ cur i, match inv_result i with
                  | Returned out => out
                  | Raised _ => cur
                  end) input calls.
End Chains.

Section Composition.
Context {Stream App : Type} `{E : Engines Stream App}.

(** One filter of the tier of the controller run on an object, as step 3 of
    the algorithm of the specification has it: a filter of kind [storlet]
    is handed with the object and the current stream to the
    computed-function engine; for a filter of any other kind the entry
    point is resolved and instantiated, and the instance is run on the
    object, the current stream and the request metadata.  How an engine is
    come by is taken from the code: the storlet gateway is the one at hand,
    or is built now ([_setup_storlet_gateway]) and kept for the filters to
    come, and a native filter is loaded by [_load_native_filter].
    [Raised e]: the gateway or the entry point could not be had and no
    engine ran; otherwise the gateway now at hand, the engine that ran, and
    what it made of the object. *)
Definition spec_engine_run (self : CrystalFilterControl) (rd : RequestData App)
    (gw : option Gateway) (fd : FilterData)
    (o : ReqResp Stream) (it : option Stream)
  : Outcome (option Gateway * EngineKind *
             (ReqResp Stream * Outcome (option Stream))) :=
  if bool_decide (type fd = "storlet")
  then
    match (match gw with
           | Some g => Returned g
           | None => _setup_storlet_gateway self rd
           end) with
    | Returned g => Returned (Some g, Storlet, execute_storlet g o fd it)
    | Raised e => Raised e
    end
  else
    match _load_native_filter self fd with
    | Returned nf => Returned (gw, Native, native_execute nf o it rd)
    | Raised e => Raised e
    end.

(** The stream composition of the specification ("the current form of the
    body, reassigned after each executed filter to that filter's output";
    "step N's output is step N+1's input"): the filters [fds] run one after
    the other on the object [o], the first on the stream [it] and each
    later one on the stream the one before it returned, until one of them
    fails.  The value is the object as the engines left it, the calls that
    were made, and the stream the last filter returned ([it] when there is
    no filter) or the exception that ended the chain.  It is written from
    the words of the specification and not from the loop of
    [execute_filters]: the properties below compare the loop with it. *)
Fixpoint spec_composition (self : CrystalFilterControl)
    (rd : RequestData App) (fds : list FilterData) (gw : option Gateway)
    (o : ReqResp Stream) (it : option Stream)
  : ReqResp Stream * list (Invocation Stream) * Outcome (option Stream) :=
  match fds with
  | [] => (o, [], Returned it)
  | fd :: rest =>
      match spec_engine_run self rd gw fd o it with
      | Raised e => (o, [], Raised e)
      | Returned (gw', kind, (o', Raised e)) =>
          (o', [mkInvocation kind fd it (Raised e)], Raised e)
      | Returned (gw', kind, (o', Returned out)) =>
          let '(o'', calls, r) := spec_composition self rd rest gw' o' out in
          (o'', mkInvocation kind fd it (Returned out) :: calls, r)
      end
  end.

(** [requets_data] as [execute_filters] builds it from its arguments. *)
Definition request_data (app : App)
    (api_version account container obj : PyStr) (method : string)
  : RequestData App :=
  {| rd_app := app; rd_api_version := api_version;
     rd_account := account; rd_container := container;
     rd_object := obj; rd_method := method |}.
End Composition.

(** ** The rest of the two modules *)

Section Singleton.
Context {Args Inst : Type}.

(** [Singleton.__call__(cls, *args, **kwargs)]: the state is the class
    attribute [_instances], keyed by the class; [construct] is
    [super(Singleton, cls).__call__], the ordinary construction of an
    instance.  When the construction raises, nothing is stored. *)
Definition Singleton_call (cls : string) (construct : Args → Outcome Inst)
    (args : Args) : Py (gmap string Inst) Inst :=
  λ _instances,
    match _instances !! cls with
    | Some inst => (_instances, Returned inst)
    | None =>
        match construct args with
        | Returned inst => (<[cls := inst]> _instances, Returned inst)
        | Raised e => (_instances, Raised e)
        end
    end.
End Singleton.

(** [CrystalFilterControl(conf, log)], the class having [Singleton] for
    metaclass. *)
Definition CrystalFilterControl_call (conf : gmap string string)
  : Py (gmap string CrystalFilterControl) CrystalFilterControl :=
  Singleton_call "CrystalFilterControl"
                 (λ conf, Returned (CrystalFilterControl_init conf)) conf.

Definition NotImplementedError : PyExc :=
  mkExc "NotImplementedError" ["RuntimeError"; "StandardError"; "Exception"]
        [].

Section BaseMethods.
Context {Stream App : Type}.

(** [CrystalBaseHandler._parse_vaco], the method a tier has to override. *)
Definition base_parse_vaco (request : ReqResp Stream)
  : Outcome (PyStr * PyStr * PyStr * PyStr) :=
  Raised NotImplementedError.

(** [CrystalBaseHandler.handle_request]. *)
Definition base_handle_request (self : CrystalBaseHandler Stream App)
  : Outcome unit :=
  Raised NotImplementedError.

(** The property [is_storlet_execution]. *)
Definition is_storlet_execution (self : CrystalBaseHandler Stream App)
  : bool :=
  bool_decide (is_Some (headers (request_getter self) !! "X-Run-Storlet")).

(** The property [is_range_request]. *)
Definition is_range_request (self : CrystalBaseHandler Stream App) : bool :=
  bool_decide (is_Some (headers (request_getter self) !! "Range")).

(** [is_slo_response(resp)]. *)
Definition is_slo_response (self : CrystalBaseHandler Stream App)
    (resp : ReqResp Stream) : bool :=
  bool_decide (is_Some (headers resp !! "X-Static-Large-Object")).

(** The handler holds a request whose path gives the four parsed
    attributes: what the property [request] is there to keep. *)
Definition tied `{T : Tier Stream App} (self : CrystalBaseHandler Stream App)
  : Prop :=
  _parse_vaco (request_getter self)
  = Returned (api_version self, account self, container self, obj self).
End BaseMethods.

(** A string has no dot. *)
Definition dotless (s : string) : Prop :=
  "."%char ∉ list_ascii_of_string s.

(** More to run the code on: the base class taken as a tier, a request that
    comes with headers, filter sets that fail late, engines that write to
    the object they are given, and a response whose length is known. *)
Module SampleMore.
Import Sample.

Definition base_tier : Tier Stream App := {|
  _parse_vaco := base_parse_vaco;
  get_account_info _ _ := Returned ∅;
  config_true_value _ := false
|}.

Definition undotted : FilterData :=
  mkFilter "proxy" "native" "Encrypt" "on_pre_put".

Definition typo : FilterData :=
  mkFilter "proxy" "Storlet" "crypto.aes.Encrypt" "on_pre_put".

(** The filter of the object tier is met first, then the failing one. *)
Definition late_failure : list (Key * FilterData) :=
  [(KInt 1, audit); (KInt 2, broken)].

Definition with_undotted : list (Key * FilterData) :=
  [(KInt 1, compress); (KInt 2, undotted)].

(** A GET that asks for a range and carries a delegation header already. *)
Definition ranged_request : ReqResp Stream :=
  {| is_request := true; req_method := "GET";
     environ := {[ "PATH_INFO" := EnvStr "/v1/AUTH_a/c/o" ]};
     headers := {[ "Range" := HText "bytes=0-99";
                   "CRYSTAL-FILTERS" := HJson (json_dumps [(KInt 1, compress)]) ]};
     app_iter := None |}.

Definition ranged_handler : CrystalBaseHandler Stream App :=
  with_request ranged_request handler0.

Definition get_filters : list (Key * FilterData) :=
  [(KInt 1, mkFilter "proxy" "storlet" "range-1.0.jar" "on_pre_get");
   (KInt 2, mkFilter "proxy" "storlet" "gunzip-1.0.jar" "on_post_get");
   (KInt 3, mkFilter "object" "storlet" "audit-1.0.jar" "on_post_get");
   (KInt 4, compress)].

(** A handler on the object tier. *)
Definition object_handler : CrystalBaseHandler Stream App :=
  {| _request := put_request "/v1/AUTH_a/c/o";
     _api_version := Some "v1"; _account := Some "AUTH_a";
     _container := Some "c"; _obj := Some "o";
     h_server := Some "object";
     sds_containers := [Some "storlet"; Some "dependency";
                        Some "docker_images"];
     app := tt; h_conf := {[ "execution_server" := "object" ]};
     filter_control := CrystalFilterControl_init
                         {[ "execution_server" := "object" ]};
     h_method := "put" |}.

(** The type of the second filter is misspelt. *)
Definition typo_scenario : list (Key * FilterData) :=
  [(KInt 1, compress); (KInt 2, typo)].

(** Two filters, both of the proxy. *)
Definition local_only : list (Key * FilterData) :=
  [(KInt 2, encrypt); (KInt 1, compress)].

(** The engines of [Sample], the storlet gateway being out of order. *)
#[refine] Definition no_gateway : Engines Stream App := {|
  Gateway := unit;
  NativeFilter := FilterData;
  list_length _ := None;
  SDSGatewayStorlet _ _ := Raised (RuntimeError "no docker daemon");
  execute_storlet _ o fd it := engine fd o it;
  native_class _ _ fd _ := Returned fd;
  native_execute nf o it _ := engine nf o it
|}.
Proof.
- intros _ o fd it. unfold engine. by destruct (String.prefix _ _).
- intros nf o it _. unfold engine. by destruct (String.prefix _ _).
Defined.

Definition ranged_hs : HookState Stream App :=
  {| this := ranged_handler; engine_calls := [] |}.

(** Engines that leave a trail on the object they are given: each run adds
    the entry point of its filter to the header [X-Filters-Run]; the
    streams are those of [Sample]. *)
Definition trail (o : ReqResp Stream) : string :=
  match headers o !! "X-Filters-Run" with
  | Some (HText t) => t
  | _ => ""
  end.

Definition marking_engine (fd : FilterData) (o : ReqResp Stream)
    (it : option Stream) : ReqResp Stream * Outcome (option Stream) :=
  (set_header "X-Filters-Run" (HText (trail o ++ main fd ++ ";")) o,
   Returned (Some (main fd ++ "(" ++ default "body" it ++ ")")))%string.

#[refine] Definition marking : Engines Stream App := {|
  Gateway := unit;
  NativeFilter := FilterData;
  list_length _ := None;
  SDSGatewayStorlet _ _ := Returned tt;
  execute_storlet _ o fd it := marking_engine fd o it;
  native_class _ _ fd _ := Returned fd;
  native_execute nf o it _ := marking_engine nf o it
|}.
Proof.
- done.
- done.
Defined.

(** The engines of [Sample], each stream being a list of one string. *)
#[refine] Definition listing : Engines Stream App := {|
  Gateway := unit;
  NativeFilter := FilterData;
  list_length s := Some (N.of_nat (String.length s));
  SDSGatewayStorlet _ _ := Returned tt;
  execute_storlet _ o fd it := engine fd o it;
  native_class _ _ fd _ := Returned fd;
  native_execute nf o it _ := engine nf o it
|}.
Proof.
- intros _ o fd it. unfold engine. by destruct (String.prefix _ _).
- intros nf o it _. unfold engine. by destruct (String.prefix _ _).
Defined.

(** The response to a GET of a large object, its length known. *)
Definition sized_response : ReqResp Stream :=
  {| is_request := false; req_method := "GET";
     environ := ∅;
     headers := {[ "Content-Length" := HText "4";
                   "X-Static-Large-Object" := HText "True" ]};
     app_iter := Some "body" |}.

(** A filter of the proxy that runs on the way back. *)
Definition gunzip : FilterData :=
  mkFilter "proxy" "storlet" "gunzip-1.0.jar" "on_post_get".
End SampleMore.

(** * Properties *)

(** ** The order of the keys and [sorted] *)

Global Instance key_le_refl : Reflexive key_le.
Proof.
  intros [n|s]; unfold key_le; simpl.
  - apply Is_true_true, Z.leb_refl.
  - apply (reflexivity (R := String.le)).
Qed.

Global Instance key_le_trans : Transitive key_le.
Proof.
  intros [x|s] [y|t] [z|u]; unfold key_le; simpl; try done.
  - rewrite !Is_true_true, !Z.leb_le. lia.
  - apply (transitivity (R := String.le)).
Qed.

Global Instance key_le_antisym : AntiSymm (=) key_le.
Proof.
  intros [x|s] [y|t]; unfold key_le; simpl; try done.
  - rewrite !Is_true_true, !Z.leb_le. intros. f_equal. lia.
  - intros H1 H2. f_equal. by apply (anti_symm String.le).
Qed.

Global Instance key_le_total : Total key_le.
Proof.
  intros [x|s] [y|t]; unfold key_le; simpl; auto.
  - rewrite !Is_true_true, !Z.leb_le. lia.
  - apply (total String.le).
Qed.

Lemma sorted_Permutation ks : sorted ks ≡ₚ ks.
Proof. apply merge_sort_Permutation. Qed.

Lemma sorted_StronglySorted ks : StronglySorted key_le (sorted ks).
Proof. apply StronglySorted_merge_sort; apply _. Qed.

(** The ascending arrangement of a collection of keys is unique: [sorted]
    does not see the order it is given the keys in. *)
Lemma sorted_Permutation_eq ks ks' : ks ≡ₚ ks' → sorted ks = sorted ks'.
Proof.
  intros Hp. apply (StronglySorted_unique key_le);
    auto using sorted_StronglySorted.
  by rewrite !sorted_Permutation.
Qed.

Lemma sorted_elem_of k ks : k ∈ sorted ks ↔ k ∈ ks.
Proof. by rewrite sorted_Permutation. Qed.

Lemma sorted_NoDup ks : NoDup ks → NoDup (sorted ks).
Proof. by rewrite sorted_Permutation. Qed.

(** ** Dicts *)

Section DictFacts.
Context {K V : Type} `{EqDecision K}.
Implicit Types (d : list (K * V)) (k : K) (v : V).

Lemma dict_get_Some_elem_of d k v : dict_get k d = Some v → (k, v) ∈ d.
Proof.
  induction d as [|[k' v'] d IH]; simpl; [done|].
  case_decide as Hk.
  - intros [= ->]. subst. apply list_elem_of_here.
  - intros. apply list_elem_of_further. auto.
Qed.

Lemma dict_get_None d k : dict_get k d = None ↔ k ∉ dict_keys d.
Proof.
  unfold dict_keys. induction d as [|[k' v'] d IH]; simpl.
  - split; [intros _; apply not_elem_of_nil|done].
  - rewrite not_elem_of_cons. case_decide as Hk; [|tauto].
    split; [done|]. intros [? _]. done.
Qed.

Lemma dict_get_is_Some d k : is_Some (dict_get k d) ↔ k ∈ dict_keys d.
Proof.
  rewrite <-not_eq_None_Some, dict_get_None.
  destruct (decide (k ∈ dict_keys d)); naive_solver.
Qed.

Lemma elem_of_dict_get d k v : dict_wf d → (k, v) ∈ d → dict_get k d = Some v.
Proof.
  unfold dict_wf, dict_keys.
  induction d as [|[k' v'] d IH]; simpl; [by intros _ ?%elem_of_nil|].
  intros [Hk' Hd]%NoDup_cons [[= -> ->]|Hin]%elem_of_cons.
  - by rewrite decide_True.
  - rewrite decide_False; [auto|].
    intros ->. apply Hk'. apply list_elem_of_fmap. by exists (k', v).
Qed.

Lemma dict_get_Permutation d d' k :
  dict_wf d → d ≡ₚ d' → dict_get k d = dict_get k d'.
Proof.
  intros Hwf Hp.
  assert (dict_wf d') as Hwf'.
  { unfold dict_wf, dict_keys in *. by rewrite <-Hp. }
  destruct (dict_get k d) as [v|] eqn:Hg.
  - symmetry. apply elem_of_dict_get; [done|].
    rewrite <-Hp. by apply dict_get_Some_elem_of.
  - symmetry. apply dict_get_None. apply dict_get_None in Hg.
    unfold dict_keys in *. by rewrite <-Hp.
Qed.

Lemma dict_set_fresh d k v : k ∉ dict_keys d → dict_set k v d = d ++ [(k, v)].
Proof.
  unfold dict_keys. induction d as [|[k' v'] d IH]; simpl; [done|].
  intros [Hne Hk]%not_elem_of_cons.
  rewrite decide_False by done. by rewrite IH.
Qed.

Lemma dict_truthy_nil d : dict_truthy d = false ↔ d = [].
Proof. by destruct d. Qed.
End DictFacts.

(** ** The loop of [execute_filters] *)

Lemma py_for_cons_inv {S A X} (x : X) xs (body : X → A → Py S A) acc s s' r :
  py_for (x :: xs) body acc s = (s', r) →
  (∃ s1 acc1, body x acc s = (s1, Returned acc1) ∧
              py_for xs body acc1 s1 = (s', r)) ∨
  (∃ e, body x acc s = (s', Raised e) ∧ r = Raised e).
Proof.
  simpl. unfold py_bind. destruct (body x acc s) as [s1 [acc1|e]].
  - intros. left. eauto.
  - intros [= <- <-]. right. eauto.
Qed.

Section ControllerFacts.
Context {Stream App : Type} `{E : Engines Stream App}.
Context (self : CrystalFilterControl) (rd : RequestData App).
Context (d : list (Key * FilterData)).
Implicit Types (loc : Locals) (st : @ExecState Stream) (k : Key).

Local Ltac engine_called kind fd input res :=
  right; exists fd, (mkInvocation kind fd input res);
  cbn [inv_filter inv_input inv_result invoked req_resp fst] in *;
  repeat split; eauto using bool_decide_eq_true_2.

(** The four ways one turn of the loop can go: the key is missing; the
    filter is delegated; the filter is local but its gateway or class could
    not be set up; the filter is local and its engine was called. *)
Lemma filter_step_inv k loc st st' r :
  filter_step self rd d k loc st = (st', r) →
  (dict_get k d = None ∧ st' = st ∧ r = Raised (KeyError k)) ∨
  (∃ fd, dict_get k d = Some fd ∧ is_local self fd = false ∧ st' = st ∧
     r = Returned {| on_other_server :=
                       dict_set k fd (on_other_server loc);
                     filter_executed := filter_executed loc;
                     storlet_gw := storlet_gw loc;
                     cur_app_iter := cur_app_iter loc |}) ∨
  (∃ fd e, dict_get k d = Some fd ∧ is_local self fd = true ∧ st' = st ∧
     r = Raised e) ∨
  (∃ fd i, dict_get k d = Some fd ∧ is_local self fd = true ∧
     inv_filter i = fd ∧ inv_input i = cur_app_iter loc ∧
     invoked st' = invoked st ++ [i] ∧
     is_request (req_resp st') = is_request (req_resp st) ∧
     match inv_result i with
     | Returned out =>
         ∃ gw, r = Returned {| on_other_server := on_other_server loc;
                               filter_executed := true;
                               storlet_gw := gw;
                               cur_app_iter := out |}
     | Raised e => r = Raised e
     end).
Proof.
  unfold filter_step, is_local.
  destruct (dict_get k d) as [fd|]; [|intros [= <- <-]; by left].
  case_bool_decide as Hloc;
    [|intros [= <- <-]; right; left; exists fd;
      by rewrite bool_decide_eq_false_2].
  intros Hrun. right. right.
  case_bool_decide as Hty.
  - unfold py_bind in Hrun.
    destruct (storlet_gw loc) as [gw|].
    + unfold py_ret, call_engine in Hrun.
      pose proof (execute_storlet_class gw (req_resp st) fd
                    (cur_app_iter loc)) as Hcls.
      destruct (execute_storlet gw (req_resp st) fd (cur_app_iter loc))
        as [o' [out|e]]; injection Hrun as <- <-.
      * engine_called Storlet fd (cur_app_iter loc) (Returned (A:=option Stream) out).
      * engine_called Storlet fd (cur_app_iter loc) (Raised (A:=option Stream) e).
    + unfold py_lift, _setup_storlet_gateway in Hrun.
      destruct (SDSGatewayStorlet (conf self) rd) as [gw|e];
        [|injection Hrun as <- <-; left;
          eauto 10 using bool_decide_eq_true_2].
      unfold py_ret, call_engine in Hrun.
      pose proof (execute_storlet_class gw (req_resp st) fd
                    (cur_app_iter loc)) as Hcls.
      destruct (execute_storlet gw (req_resp st) fd (cur_app_iter loc))
        as [o' [out|e]]; injection Hrun as <- <-.
      * engine_called Storlet fd (cur_app_iter loc) (Returned (A:=option Stream) out).
      * engine_called Storlet fd (cur_app_iter loc) (Raised (A:=option Stream) e).
  - unfold py_bind, py_lift in Hrun.
    destruct (_load_native_filter self fd) as [nf|e];
      [|injection Hrun as <- <-; left;
        eauto 10 using bool_decide_eq_true_2].
    unfold py_ret, call_engine in Hrun.
    pose proof (native_execute_class nf (req_resp st) (cur_app_iter loc) rd)
      as Hcls.
    destruct (native_execute nf (req_resp st) (cur_app_iter loc) rd)
      as [o' [out|e]]; injection Hrun as <- <-.
    * engine_called Native fd (cur_app_iter loc) (Returned (A:=option Stream) out).
    * engine_called Native fd (cur_app_iter loc) (Raised (A:=option Stream) e).
Qed.

Lemma items_at_cons_Some k fd ks :
  dict_get k d = Some fd → items_at d (k :: ks) = (k, fd) :: items_at d ks.
Proof. unfold items_at. simpl. by intros ->. Qed.

(** What a run of the loop over the keys [ks] does, whatever its outcome:
    the engine calls it adds compose the streams, their filters are the
    local filters at [ks], in the order of [ks], up to the point the run
    has reached; and on return, what the local variables hold. *)
Lemma loop_spec ks : ∀ loc st st' r,
  py_for ks (filter_step self rd d) loc st = (st', r) →
  ∃ new,
    invoked st' = invoked st ++ new ∧
    is_request (req_resp st') = is_request (req_resp st) ∧
    chained (cur_app_iter loc) new ∧
    (new = [] → st' = st) ∧
    (∀ i e, i ∈ new → inv_result i = Raised e → r = Raised e) ∧
    inv_filter <$> new `prefix_of`
      (filter (λ kv, is_local self kv.2) (items_at d ks)).*2 ∧
    ∀ loc', r = Returned loc' →
      inv_filter <$> new
        = (filter (λ kv, is_local self kv.2) (items_at d ks)).*2 ∧
      Forall (λ k, k ∈ dict_keys d) ks ∧
      on_other_server loc'
        = foldl (λ acc kv, dict_set kv.1 kv.2 acc) (on_other_server loc)
                (filter (λ kv, ¬ is_local self kv.2) (items_at d ks)) ∧
      filter_executed loc'
        = match new with [] => filter_executed loc | _ => true end ∧
      cur_app_iter loc' = final_stream (cur_app_iter loc) new.
Proof.
  induction ks as [|k ks IH]; intros loc st st' r Hrun.
  { injection Hrun as <- <-. exists []. rewrite app_nil_r.
    split_and!; try done.
    - by intros i e ?%elem_of_nil.
    - by intros lf [= <-]. }
  apply py_for_cons_inv in Hrun
    as [(st1 & loc1 & Hstep & Hrest)|(e & Hstep & ->)].
  - apply filter_step_inv in Hstep
      as [(_ & _ & [=])
         |[(fd & Hget & Hloc & -> & [= ->])
          |[(fd & e & _ & _ & _ & [=])
           |(fd & i & Hget & Hloc & Hfd & Hin & Hinv & Hcls & Hres)]]].
    + (* delegated *)
      destruct (IH _ _ _ _ Hrest)
        as (new & Hnew & Hc & Hch & Hnil & Hraised & Hpre & Hret).
      exists new. rewrite (items_at_cons_Some _ _ _ Hget).
      rewrite filter_cons_False by (by apply Is_true_false_2).
      rewrite filter_cons_True by (by apply Is_true_false_2).
      split_and!; try done.
      intros lf ->. destruct (Hret _ eq_refl) as (?&?&?&?&?).
      split_and!; try done.
      constructor; [|done]. apply dict_get_is_Some. by rewrite Hget.
    + (* engine called, and it returned *)
      destruct (inv_result i) as [out|e] eqn:Hi; [|done].
      destruct Hres as [gw [= ->]].
      destruct (IH _ _ _ _ Hrest)
        as (new & Hnew & Hc & Hch & Hnil & Hraised & Hpre & Hret).
      exists (i :: new). rewrite (items_at_cons_Some _ _ _ Hget).
      rewrite filter_cons_True by (by apply Is_true_true_2).
      rewrite filter_cons_False
        by (intros Hn; apply Hn; by apply Is_true_true_2).
      cbn [cur_app_iter] in Hch.
      split_and!.
      * by rewrite Hnew, Hinv, <-app_assoc.
      * congruence.
      * simpl. by rewrite Hi.
      * done.
      * intros i' e [->|Hi']%elem_of_cons; [congruence|eauto].
      * rewrite !fmap_cons, Hfd. by apply prefix_cons.
      * intros lf ->.
        destruct (Hret _ eq_refl) as (Hf & Hks & Hoos & Hfe & Hcur).
        split_and!.
        -- rewrite !fmap_cons, Hfd. simpl. by rewrite Hf.
        -- constructor; [|done]. apply dict_get_is_Some. by rewrite Hget.
        -- done.
        -- rewrite Hfe. by destruct new.
        -- rewrite Hcur. unfold final_stream. simpl. by rewrite Hi.
  - apply filter_step_inv in Hstep
      as [(_ & -> & _)
         |[(fd & _ & _ & _ & [=])
          |[(fd & e' & _ & _ & -> & _)
           |(fd & i & Hget & Hloc & Hfd & Hin & Hinv & Hcls & Hres)]]].
    + exists []. rewrite app_nil_r. split_and!; try done.
      * by intros i e' ?%elem_of_nil.
      * apply prefix_nil.
    + exists []. rewrite app_nil_r. split_and!; try done.
      * by intros i e'' ?%elem_of_nil.
      * apply prefix_nil.
    + destruct (inv_result i) as [out|e'] eqn:Hi;
        [by destruct Hres|injection Hres as ->].
      exists [i]. rewrite (items_at_cons_Some _ _ _ Hget).
      rewrite filter_cons_True by (by apply Is_true_true_2).
      simpl. rewrite Hi, Hfd. split_and!; try done.
      * intros i' e [->|?%elem_of_nil]%elem_of_cons; [congruence|done].
      * apply prefix_cons, prefix_nil.
Qed.
End ControllerFacts.

(** ** The sorted entries of a dict *)

Lemma py_for_ext {S A X} (xs : list X) (body body' : X → A → Py S A) acc s :
  (∀ x acc s, x ∈ xs → body x acc s = body' x acc s) →
  py_for xs body acc s = py_for xs body' acc s.
Proof.
  revert acc s. induction xs as [|x xs IH]; intros acc s Hext; [done|].
  simpl. unfold py_bind. rewrite Hext by apply list_elem_of_here.
  destruct (body' x acc s) as [s1 [acc1|e]]; [|done].
  apply IH. intros. apply Hext. by apply list_elem_of_further.
Qed.

Lemma items_at_self (d d' : list (Key * FilterData)) :
  (∀ k v, (k, v) ∈ d' → dict_get k d = Some v) →
  items_at d (dict_keys d') = d'.
Proof.
  unfold items_at, dict_keys. induction d' as [|[k v] d' IH]; [done|].
  intros Hd. simpl. rewrite (Hd k v) by apply list_elem_of_here. simpl.
  f_equal. apply IH. intros. apply Hd. by apply list_elem_of_further.
Qed.

Lemma sorted_items_Permutation d : dict_wf d → sorted_items d ≡ₚ d.
Proof.
  intros Hwf. unfold sorted_items, items_at.
  rewrite sorted_Permutation.
  apply (reflexive_eq (R := (≡ₚ))), (items_at_self d d).
  intros k v. by apply elem_of_dict_get.
Qed.

Lemma items_at_keys d ks :
  Forall (λ k, k ∈ dict_keys d) ks → (items_at d ks).*1 = ks.
Proof.
  induction 1 as [|k ks Hk _ IH]; [done|].
  apply dict_get_is_Some in Hk as [v Hv].
  rewrite (items_at_cons_Some d k v ks Hv), fmap_cons. simpl.
  by rewrite IH.
Qed.

Lemma sorted_items_keys d : (sorted_items d).*1 = sorted (dict_keys d).
Proof.
  apply items_at_keys, Forall_forall. intros k. by rewrite sorted_elem_of.
Qed.

Lemma elem_of_items_at d ks k fd :
  (k, fd) ∈ items_at d ks ↔ k ∈ ks ∧ dict_get k d = Some fd.
Proof.
  unfold items_at. rewrite list_elem_of_omap. split.
  - intros (k' & Hk' & Hget).
    destruct (dict_get k' d) as [v|] eqn:Hv; simplify_eq/=. done.
  - intros [Hk Hget]. exists k. by rewrite Hget.
Qed.

(** The two parts of a filter set make up the set, and share no key. *)
Lemma parts_Permutation self d :
  dict_wf d → local_part self d ++ other_part self d ≡ₚ d.
Proof.
  intros Hwf. unfold local_part, other_part.
  by rewrite filter_app_complement, sorted_items_Permutation.
Qed.

Lemma foldl_dict_set_fresh (acc l : list (Key * FilterData)) :
  NoDup (dict_keys (acc ++ l)) →
  foldl (λ acc kv, dict_set kv.1 kv.2 acc) acc l = acc ++ l.
Proof.
  revert acc. induction l as [|[k v] l IH]; intros acc Hnd; simpl.
  - by rewrite app_nil_r.
  - rewrite (cons_middle _ acc l), app_assoc in Hnd |- *.
    rewrite dict_set_fresh; [by apply IH|].
    unfold dict_keys in Hnd. rewrite fmap_app in Hnd.
    apply NoDup_app in Hnd as [Hnd _].
    rewrite fmap_app in Hnd. apply NoDup_app in Hnd as (_ & Hdisj & _).
    intros Hin. apply (Hdisj k Hin). simpl. apply list_elem_of_here.
Qed.

Lemma StronglySorted_sublist {A} (R : relation A) (l1 l2 : list A) :
  l1 `sublist_of` l2 → StronglySorted R l2 → StronglySorted R l1.
Proof.
  induction 1 as [|x l1 l2 Hsub IH|x l1 l2 Hsub IH]; [done|..].
  - intros [Hall Hs]%StronglySorted_cons. constructor; [auto|].
    eapply Forall_forall. intros y Hy.
    eapply Forall_forall in Hall; [done|]. by eapply elem_of_sublist.
  - intros [_ Hs]%StronglySorted_cons. auto.
Qed.

Lemma StronglySorted_key_lt ks :
  NoDup ks → StronglySorted key_le ks → StronglySorted key_lt ks.
Proof.
  induction 2 as [|k ks Hs IH Hall]; [constructor|].
  apply NoDup_cons in H as [Hk Hnd]. constructor; [auto|].
  apply Forall_forall. intros k' Hk'. split.
  - by eapply Forall_forall in Hall.
  - by intros ->.
Qed.

Lemma part_keys_NoDup d (P : Key * FilterData → Prop)
    `{!∀ x, Decision (P x)} :
  dict_wf d → NoDup (dict_keys (filter P (sorted_items d))).
Proof.
  intros Hwf. unfold dict_keys.
  eapply sublist_NoDup; [|apply fmap_sublist, sublist_filter].
  rewrite sorted_items_keys. by apply sorted_NoDup.
Qed.

(** The keys of the local part are the local keys of the dict, in strictly
    ascending order. *)
Lemma local_part_ascending self d :
  dict_wf d → StronglySorted key_lt (local_part self d).*1.
Proof.
  intros Hwf. apply StronglySorted_key_lt.
  - by apply part_keys_NoDup.
  - eapply StronglySorted_sublist; [apply fmap_sublist, sublist_filter|].
    rewrite sorted_items_keys. apply sorted_StronglySorted.
Qed.

Lemma elem_of_local_part self d k fd :
  (k, fd) ∈ local_part self d ↔
  dict_get k d = Some fd ∧ is_local self fd = true.
Proof.
  unfold local_part, sorted_items.
  rewrite list_elem_of_filter, elem_of_items_at, sorted_elem_of. simpl.
  rewrite Is_true_true. split; [tauto|]. intros [Hget ?]. split_and!; try done.
  apply dict_get_is_Some. by rewrite Hget.
Qed.

Lemma elem_of_other_part self d k fd :
  (k, fd) ∈ other_part self d ↔
  dict_get k d = Some fd ∧ is_local self fd = false.
Proof.
  unfold other_part, sorted_items.
  rewrite list_elem_of_filter, elem_of_items_at, sorted_elem_of. simpl.
  rewrite Is_true_false. split; [tauto|]. intros [Hget ?]. split_and!; try done.
  apply dict_get_is_Some. by rewrite Hget.
Qed.

(** ** [execute_filters] as a whole *)

Section ExecuteFacts.
Context {Stream App : Type} `{E : Engines Stream App}.
Implicit Types (st : @ExecState Stream).

Lemma execute_filters_finish_eq (loc : Locals) st :
  execute_filters_finish loc st
  = ({| req_resp := with_body (filter_executed loc) (cur_app_iter loc)
                      (with_delegation (on_other_server loc) (req_resp st));
        invoked := invoked st |}, Returned tt).
Proof.
  unfold execute_filters_finish, with_body, with_delegation, py_bind,
    on_req_resp, py_modify, py_ret.
  destruct st as [o calls].
  by destruct (dict_truthy (on_other_server loc)), (filter_executed loc).
Qed.

(** Every run of [execute_filters], summed up. *)
Lemma execute_filters_inv self d app v a c o m st st' r :
  dict_wf d →
  execute_filters self d app v a c o m st = (st', r) →
  ∃ new,
    invoked st' = invoked st ++ new ∧
    chained None new ∧
    (∀ i e, i ∈ new → inv_result i = Raised e → r = Raised e) ∧
    inv_filter <$> new `prefix_of` (local_part self d).*2 ∧
    (r = Returned tt →
       inv_filter <$> new = (local_part self d).*2 ∧
       ∃ o1, is_request o1 = is_request (req_resp st) ∧
             (new = [] → o1 = req_resp st) ∧
             req_resp st'
             = with_body (bool_decide (new ≠ [])) (final_stream None new)
                 (with_delegation (other_part self d) o1)).
Proof.
  intros Hwf. unfold execute_filters, py_bind, execute_filters_loop.
  match goal with
  | |- context [py_for ?ks ?body initial_locals st] =>
      destruct (py_for ks body initial_locals st) as [st1 r1] eqn:Hloop
  end.
  apply loop_spec in Hloop
    as (new & Hnew & Hcls & Hch & Hnil & Hraised & Hpre & Hret).
  fold (sorted_items d) in Hpre, Hret.
  fold (local_part self d) in Hpre, Hret.
  fold (other_part self d) in Hret.
  destruct r1 as [loc|e].
  - rewrite execute_filters_finish_eq. intros [= <- <-].
    destruct (Hret _ eq_refl) as (Hf & _ & Hoos & Hfe & Hcur).
    exists new. cbn [invoked req_resp]. split_and!; try done.
    + intros i e Hi He. by specialize (Hraised i e Hi He).
    + intros _. split; [done|]. exists (req_resp st1).
      split_and!; [done|by intros ->%Hnil|].
      rewrite Hfe, Hcur, Hoos. simpl.
      rewrite (foldl_dict_set_fresh [])
        by (by apply part_keys_NoDup).
      cbn [cur_app_iter initial_locals filter_executed]. simpl.
      by destruct new.
  - intros [= <- <-]. exists new. split_and!; try done.
    intros i e0 Hi He. by injection (Hraised i e0 Hi He) as ->.
Qed.
End ExecuteFacts.

Section BodyFacts.
Context {Stream App : Type} `{E : Engines Stream App}.
Implicit Types (o : ReqResp Stream).

(** The new body of a request leaves its headers alone. *)
Lemma with_body_headers_request b it o :
  is_request o = true → headers (with_body b it o) = headers o.
Proof. intros Ho. unfold with_body. rewrite Ho. by destruct b. Qed.

(** The new body of a response touches no header but [Content-Length]. *)
Lemma with_body_header_ne b it o name :
  name ≠ "Content-Length" →
  headers (with_body b it o) !! name = headers o !! name.
Proof.
  intros Hne. unfold with_body. destruct b; [|done].
  destruct (is_request o); [done|].
  unfold set_app_iter. cbn [headers].
  destruct it as [value|]; [|done].
  destruct (list_length value).
  - by rewrite lookup_insert_ne.
  - by rewrite lookup_delete_ne.
Qed.

Lemma with_body_is_request b it o :
  is_request (with_body b it o) = is_request o.
Proof.
  unfold with_body. destruct b; [|done].
  by destruct (is_request o) eqn:Ho.
Qed.
End BodyFacts.

Lemma with_delegation_is_request {Stream} del (o : ReqResp Stream) :
  is_request (with_delegation del o) = is_request o.
Proof. unfold with_delegation. by destruct (dict_truthy del). Qed.

Lemma with_delegation_body {Stream} del (o : ReqResp Stream) :
  environ (with_delegation del o) = environ o ∧
  app_iter (with_delegation del o) = app_iter o.
Proof. unfold with_delegation. by destruct (dict_truthy del). Qed.

Lemma chained_raised_last {Stream} input (calls : list (Invocation Stream)) i e :
  chained input calls → i ∈ calls → inv_result i = Raised e →
  last calls = Some i.
Proof.
  revert input. induction calls as [|j calls IH]; intros input;
    [by intros _ ?%elem_of_nil|].
  simpl. intros [_ Hj] [->|Hi]%elem_of_cons He.
  - rewrite He in Hj. by subst.
  - destruct (inv_result j) as [out|e'].
    + rewrite last_cons. by erewrite IH.
    + subst. by apply elem_of_nil in Hi.
Qed.

(** [execute_filters] returns whenever none of its collaborators raises
    and every local native filter has a dotted entry point. *)
Section Progress.
Context {Stream App : Type} `{E : Engines Stream App}.
Context (self : CrystalFilterControl) (d : list (Key * FilterData)).
Hypothesis gateway_returns :
  ∀ cf rd, ∃ gw, SDSGatewayStorlet cf rd = Returned gw.
Hypothesis storlet_returns :
  ∀ gw o fd it, ∃ o' out, execute_storlet gw o fd it = (o', Returned out).
Hypothesis class_returns :
  ∀ m cl fd cf, ∃ nf, native_class m cl fd cf = Returned nf.
Hypothesis native_returns :
  ∀ nf o it rd, ∃ o' out, native_execute nf o it rd = (o', Returned out).
Hypothesis dotted :
  ∀ k fd, dict_get k d = Some fd → is_local self fd = true →
          type fd ≠ "storlet" → is_Some (rsplit_dot (main fd)).

Lemma filter_step_returns rd k loc (st : @ExecState Stream) :
  k ∈ dict_keys d →
  ∃ st' loc', filter_step self rd d k loc st = (st', Returned loc').
Proof.
  intros [fd Hget]%dict_get_is_Some. unfold filter_step. rewrite Hget.
  pose proof (dotted k fd Hget) as Hdot. unfold is_local in Hdot.
  case_bool_decide as Hloc; [|by eexists _, _].
  case_bool_decide as Hty.
  - unfold py_bind, py_lift, _setup_storlet_gateway, call_engine, py_ret.
    destruct (storlet_gw loc) as [gw|].
    + destruct (storlet_returns gw (req_resp st) fd (cur_app_iter loc))
        as (o' & out & ->). by eexists _, _.
    + destruct (gateway_returns (conf self) rd) as [gw ->].
      destruct (storlet_returns gw (req_resp st) fd (cur_app_iter loc))
        as (o' & out & ->). by eexists _, _.
  - destruct (Hdot eq_refl Hty) as [[m cl] Hm].
    unfold py_bind, py_lift, _load_native_filter, call_engine, py_ret.
    rewrite Hm.
    destruct (class_returns (PACKAGE_NAME ++ "." ++ m)%string cl fd
                (conf self)) as [nf ->].
    destruct (native_returns nf (req_resp st) (cur_app_iter loc) rd)
      as (o' & out & ->). by eexists _, _.
Qed.

Lemma loop_returns rd ks : ∀ loc (st : @ExecState Stream),
  Forall (λ k, k ∈ dict_keys d) ks →
  ∃ st' loc', py_for ks (filter_step self rd d) loc st = (st', Returned loc').
Proof.
  induction ks as [|k ks IH]; intros loc st Hks; [by eexists _, _|].
  apply Forall_cons in Hks as [Hk Hks]. simpl. unfold py_bind.
  destruct (filter_step_returns rd k loc st Hk) as (st1 & loc1 & ->).
  by apply IH.
Qed.

Lemma execute_filters_returns app v a c o m (st : @ExecState Stream) :
  ∃ st', execute_filters self d app v a c o m st = (st', Returned tt).
Proof.
  unfold execute_filters, execute_filters_loop. unfold py_bind at 1.
  match goal with
  | |- context [py_for ?ks (filter_step self ?rd d) initial_locals st] =>
      destruct (loop_returns rd ks initial_locals st) as (st1 & loc & ->)
  end.
  { apply Forall_forall. intros k. by rewrite sorted_elem_of. }
  rewrite execute_filters_finish_eq. by eexists.
Qed.
End Progress.

(** ** The loop of [execute_filters] and the composition of the engines *)

Section Applied.
Context {Stream App : Type} `{E : Engines Stream App}.
Context (self : CrystalFilterControl) (rd : RequestData App).
Context (d : list (Key * FilterData)).
Implicit Types (loc : Locals) (st : @ExecState Stream) (k : Key).

(** A turn of the loop at a filter of the other tier. *)
Lemma filter_step_delegated k fd loc st :
  dict_get k d = Some fd → is_local self fd = false →
  filter_step self rd d k loc st
  = (st, Returned {| on_other_server := dict_set k fd (on_other_server loc);
                     filter_executed := filter_executed loc;
                     storlet_gw := storlet_gw loc;
                     cur_app_iter := cur_app_iter loc |}).
Proof.
  intros Hget Hloc. unfold filter_step. rewrite Hget.
  unfold is_local in Hloc. by rewrite Hloc.
Qed.

(** A turn of the loop at a filter of the tier of the controller is one run
    of the engine of the filter, on the object as it stands and on the
    current stream. *)
Lemma filter_step_local k fd loc st :
  dict_get k d = Some fd → is_local self fd = true →
  filter_step self rd d k loc st
  = match spec_engine_run self rd (storlet_gw loc) fd (req_resp st)
            (cur_app_iter loc) with
    | Raised e => (st, Raised e)
    | Returned (gw', kind, (o', res)) =>
        ({| req_resp := o';
            invoked := invoked st
                         ++ [mkInvocation kind fd (cur_app_iter loc) res] |},
         match res with
         | Returned out =>
             Returned {| on_other_server := on_other_server loc;
                         filter_executed := true;
                         storlet_gw := gw';
                         cur_app_iter := out |}
         | Raised e => Raised e
         end)
    end.
Proof.
  intros Hget Hloc. unfold filter_step, spec_engine_run. rewrite Hget.
  unfold is_local in Hloc. rewrite Hloc. clear Hloc.
  destruct (bool_decide (type fd = "storlet")).
  - unfold py_bind, py_lift, py_ret, call_engine.
    destruct (storlet_gw loc) as [gw|].
    + by destruct (execute_storlet gw (req_resp st) fd (cur_app_iter loc))
        as [o' [out|e]].
    + destruct (_setup_storlet_gateway self rd) as [gw|e]; [|done].
      by destruct (execute_storlet gw (req_resp st) fd (cur_app_iter loc))
        as [o' [out|e]].
  - unfold py_bind, py_lift, py_ret, call_engine.
    destruct (_load_native_filter self fd) as [nf|e]; [|done].
    by destruct (native_execute nf (req_resp st) (cur_app_iter loc) rd)
      as [o' [out|e]].
Qed.

(** The loop over the keys [ks] is the composition of the engines over the
    local filters at [ks], in the order of [ks]; the filters of the other
    tier are gathered on the way and touch neither the object nor the
    stream. *)
Lemma loop_composition ks : ∀ loc st,
  Forall (λ k, k ∈ dict_keys d) ks →
  ∃ gw',
    py_for ks (filter_step self rd d) loc st
    = let '(o1, calls, res) :=
        spec_composition self rd
          (filter (λ kv, is_local self kv.2) (items_at d ks)).*2
          (storlet_gw loc) (req_resp st) (cur_app_iter loc) in
      ({| req_resp := o1; invoked := invoked st ++ calls |},
       match res with
       | Returned out =>
           Returned
             {| on_other_server :=
                  foldl (λ acc kv, dict_set kv.1 kv.2 acc)
                    (on_other_server loc)
                    (filter (λ kv, ¬ is_local self kv.2) (items_at d ks));
                filter_executed :=
                  match filter (λ kv, is_local self kv.2) (items_at d ks) with
                  | [] => filter_executed loc
                  | _ => true
                  end;
                storlet_gw := gw';
                cur_app_iter := out |}
       | Raised e => Raised e
       end).
Proof.
  induction ks as [|k ks IH]; intros loc st Hks.
  { exists (storlet_gw loc). cbn. rewrite app_nil_r.
    by destruct loc, st. }
  apply Forall_cons in Hks as [[fd Hget]%dict_get_is_Some Hks].
  rewrite (items_at_cons_Some d k fd ks Hget).
  cbn [py_for]. unfold py_bind.
  destruct (is_local self fd) eqn:Hloc.
  - rewrite filter_cons_True by (by apply Is_true_true_2).
    rewrite filter_cons_False
      by (intros Hn; apply Hn; by apply Is_true_true_2).
    rewrite (filter_step_local k fd loc st Hget Hloc).
    rewrite fmap_cons. cbn [spec_composition snd].
    destruct (spec_engine_run self rd (storlet_gw loc) fd (req_resp st)
                (cur_app_iter loc)) as [[[gw1 kind] [o' [out|e]]]|e].
    + destruct (IH {| on_other_server := on_other_server loc;
                      filter_executed := true;
                      storlet_gw := gw1;
                      cur_app_iter := out |}
                   {| req_resp := o';
                      invoked := invoked st
                        ++ [mkInvocation kind fd (cur_app_iter loc)
                              (Returned out)] |} Hks) as [gw' ->].
      exists gw'. cbn [storlet_gw req_resp cur_app_iter invoked
                       on_other_server filter_executed].
      destruct (spec_composition self rd _ gw1 o' out) as [[o'' calls] r].
      rewrite <-app_assoc. cbn [app].
      destruct r; [|done].
      by destruct (filter _ (items_at d ks)).
    + exists None. done.
    + exists None. rewrite app_nil_r. by destruct st.
  - rewrite filter_cons_False by (by apply Is_true_false_2).
    rewrite filter_cons_True by (by apply Is_true_false_2).
    rewrite (filter_step_delegated k fd loc st Hget Hloc).
    destruct (IH {| on_other_server := dict_set k fd (on_other_server loc);
                    filter_executed := filter_executed loc;
                    storlet_gw := storlet_gw loc;
                    cur_app_iter := cur_app_iter loc |} st Hks)
      as [gw' ->].
    exists gw'. done.
Qed.
End Applied.

Section AppliedFacts.
Context {Stream App : Type} `{E : Engines Stream App}.
Implicit Types (st : @ExecState Stream).

(** What [execute_filters] does, in one equation: the engines are composed
    over the local part of the filter set in ascending order of the keys;
    when the chain comes to its end the other part goes into the header and
    the last stream becomes the body; when it fails the object is left as
    the engines left it. *)
Lemma execute_filters_composition self d app v a c o m st :
  dict_wf d →
  execute_filters self d app v a c o m st
  = let '(o1, calls, res) :=
      spec_composition self (request_data app v a c o m)
        (local_part self d).*2 None (req_resp st) None in
    match res with
    | Returned out =>
        ({| req_resp :=
              with_body (dict_truthy (local_part self d)) out
                (with_delegation (other_part self d) o1);
            invoked := invoked st ++ calls |}, Returned tt)
    | Raised e =>
        ({| req_resp := o1; invoked := invoked st ++ calls |}, Raised e)
    end.
Proof.
  intros Hwf. unfold execute_filters, execute_filters_loop.
  unfold py_bind at 1.
  fold (request_data app v a c o m).
  destruct (loop_composition self (request_data app v a c o m) d
              (sorted (dict_keys d)) initial_locals st) as [gw' ->].
  { apply Forall_forall. intros k. by rewrite sorted_elem_of. }
  fold (sorted_items d). fold (local_part self d). fold (other_part self d).
  cbn [initial_locals storlet_gw cur_app_iter on_other_server
       filter_executed].
  destruct (spec_composition _ _ _ _ _ _) as [[o1 calls] [out|e]]; [|done].
  rewrite execute_filters_finish_eq.
  cbn [req_resp invoked on_other_server filter_executed cur_app_iter].
  rewrite (foldl_dict_set_fresh []) by (by apply part_keys_NoDup).
  rewrite app_nil_l. by destruct (local_part self d).
Qed.

(** A run of an engine leaves the object the instance of the class it
    is. *)
Lemma spec_engine_run_class self rd gw fd (o : ReqResp Stream) it gw' kind o' res :
  spec_engine_run self rd gw fd o it = Returned (gw', kind, (o', res)) →
  is_request o' = is_request o.
Proof.
  unfold spec_engine_run. destruct (bool_decide (type fd = "storlet")).
  - destruct (match gw with Some g => Returned g
              | None => _setup_storlet_gateway self rd end) as [g|];
      [|done].
    intros [= _ _ Hcall].
    rewrite <-(execute_storlet_class g o fd it). by rewrite Hcall.
  - destruct (_load_native_filter self fd) as [nf|]; [|done].
    intros [= _ _ Hcall].
    rewrite <-(native_execute_class nf o it rd). by rewrite Hcall.
Qed.

(** The calls of a composition: they are chained, a call that raised ends
    the chain with its exception, and when the chain comes to its end there
    is one call for each filter, in the order of the filters, the stream of
    the last call being the stream of the chain. *)
Lemma spec_composition_calls self rd fds :
  ∀ gw (o : ReqResp Stream) it o1 calls res,
    spec_composition self rd fds gw o it = (o1, calls, res) →
    chained it calls ∧
    is_request o1 = is_request o ∧
    inv_filter <$> calls `prefix_of` fds ∧
    (calls = [] → o1 = o) ∧
    (∀ i e, i ∈ calls → inv_result i = Raised e → res = Raised e) ∧
    (∀ out, res = Returned out →
            inv_filter <$> calls = fds ∧ final_stream it calls = out).
Proof.
  induction fds as [|fd fds IH]; intros gw o it o1 calls res.
  { intros [= <- <- <-]. split_and!; try done.
    - by intros i e ?%elem_of_nil.
    - by intros out [= <-]. }
  cbn [spec_composition].
  destruct (spec_engine_run self rd gw fd o it)
    as [[[gw1 kind] [o' [out|e]]]|e] eqn:Hrun.
  - destruct (spec_composition self rd fds gw1 o' out)
      as [[o'' calls1] r] eqn:Hrest.
    intros [= <- <- <-].
    destruct (IH _ _ _ _ _ _ Hrest)
      as (Hch & Hcls & Hpre & _ & Hraised & Hres).
    apply spec_engine_run_class in Hrun.
    split_and!; [done|congruence|by apply prefix_cons|done|..].
    + intros i e [->|Hi]%elem_of_cons; [done|eauto].
    + intros out' ->. destruct (Hres _ eq_refl) as [Hf Hfin].
      split; [by rewrite fmap_cons, Hf|done].
  - intros [= <- <- <-]. apply spec_engine_run_class in Hrun.
    split_and!; try done.
    + apply prefix_cons, prefix_nil.
    + intros i e' [->|?%elem_of_nil]%elem_of_cons; [|done].
      by intros [= ->].
  - intros [= <- <- <-]. split_and!; try done.
    + apply prefix_nil.
    + by intros i e' ?%elem_of_nil.
Qed.
End AppliedFacts.

Section AppliedMore.
Context {Stream App : Type} `{E : Engines Stream App}.
Implicit Types (st : @ExecState Stream) (o : ReqResp Stream).

(** What the engine calls preserve, the composition preserves. *)
Lemma spec_composition_preserves (P : ReqResp Stream → Prop) self rd :
  (∀ gw o fd it, P o → P (execute_storlet gw o fd it).1) →
  (∀ nf o it rd', P o → P (native_execute nf o it rd').1) →
  ∀ fds gw o it o1 calls res,
    spec_composition self rd fds gw o it = (o1, calls, res) →
    P o → P o1.
Proof.
  intros Hs Hn. induction fds as [|fd fds IH]; intros gw o it o1 calls res.
  { by intros [= <- <- <-]. }
  cbn [spec_composition].
  destruct (spec_engine_run self rd gw fd o it)
    as [[[gw1 kind] [o' res']]|e] eqn:Hrun; [|by intros [= <- <- <-]].
  intros Happ HP. assert (P o') as HP'.
  { unfold spec_engine_run in Hrun.
    destruct (bool_decide (type fd = "storlet")).
    - destruct (match gw with Some g => Returned g
                | None => _setup_storlet_gateway self rd end) as [g|];
        [|done].
      injection Hrun as _ _ Hcall.
      specialize (Hs g o fd it HP). by rewrite Hcall in Hs.
    - destruct (_load_native_filter self fd) as [nf|]; [|done].
      injection Hrun as _ _ Hcall.
      specialize (Hn nf o it rd HP). by rewrite Hcall in Hn. }
  destruct res' as [out|e].
  - destruct (spec_composition self rd fds gw1 o' out)
      as [[o'' calls1] r] eqn:Hrest.
    injection Happ as <- <- <-. eauto.
  - by injection Happ as <- <- <-.
Qed.

(** Native filters do not touch the gateway: the composition over native
    filters followed by others is the composition over the native filters,
    carried on over the others with the gateway that was at hand. *)
Lemma spec_composition_natives_app self rd natives rest :
  Forall (λ fd, type fd ≠ "storlet") natives →
  ∀ gw o it,
    spec_composition self rd (natives ++ rest) gw o it
    = match spec_composition self rd natives gw o it with
      | (o1, calls1, Returned out) =>
          let '(o2, calls2, r) := spec_composition self rd rest gw o1 out in
          (o2, calls1 ++ calls2, r)
      | (o1, calls1, Raised e) => (o1, calls1, Raised e)
      end.
Proof.
  induction 1 as [|fd natives Hty _ IH]; intros gw o it.
  { cbn. by destruct (spec_composition self rd rest gw o it) as [[??]?]. }
  rewrite <-app_comm_cons. cbn [spec_composition]. unfold spec_engine_run.
  rewrite (bool_decide_eq_false_2 (type fd = "storlet")) by done.
  destruct (_load_native_filter self fd) as [nf|e]; [|done].
  destruct (native_execute nf o it rd) as [o' [out|e]]; [|done].
  rewrite IH.
  destruct (spec_composition self rd natives gw o' out)
    as [[o1 calls1] [out1|e1]]; [|done].
  by destruct (spec_composition self rd rest gw o1 out1) as [[??]?].
Qed.

(** The calls of a composition over native filters are calls of native
    filters. *)
Lemma spec_composition_natives self rd natives :
  Forall (λ fd, type fd ≠ "storlet") natives →
  ∀ gw o it o1 calls res,
    spec_composition self rd natives gw o it = (o1, calls, res) →
    Forall (λ i, inv_engine i = Native) calls.
Proof.
  induction 1 as [|fd natives Hty _ IH]; intros gw o it o1 calls res.
  { by intros [= <- <- <-]. }
  cbn [spec_composition]. unfold spec_engine_run.
  rewrite (bool_decide_eq_false_2 (type fd = "storlet")) by done.
  destruct (_load_native_filter self fd) as [nf|e];
    [|by intros [= <- <- <-]].
  destruct (native_execute nf o it rd) as [o' [out|e]].
  - destruct (spec_composition self rd natives gw o' out)
      as [[o'' calls1] r] eqn:Hrest.
    intros [= <- <- <-]. constructor; [done|eauto].
  - intros [= <- <- <-]. by repeat constructor.
Qed.

(** Native filters whose classes load and whose runs return make a
    composition that comes to its end, whatever the gateway. *)
Lemma spec_composition_natives_return self rd natives :
  Forall (λ fd, type fd ≠ "storlet" ∧
                ∃ nf, _load_native_filter self fd = Returned nf ∧
                      ∀ o it, ∃ o' out,
                        native_execute nf o it rd = (o', Returned out))
         natives →
  ∀ gw o it, ∃ o1 calls out,
    spec_composition self rd natives gw o it = (o1, calls, Returned out).
Proof.
  induction 1 as [|fd natives (Hty & nf & Hload & Hexec) _ IH];
    intros gw o it.
  { by eexists _, _, _. }
  cbn [spec_composition]. unfold spec_engine_run.
  rewrite (bool_decide_eq_false_2 (type fd = "storlet")) by done.
  rewrite Hload.
  destruct (Hexec o it) as (o' & out & ->).
  destruct (IH gw o' out) as (o1 & calls & out1 & ->).
  by eexists _, _, _.
Qed.
End AppliedMore.


(** ** The claims about [execute_filters] *)

Section ExecuteClaims.
Context {Stream App : Type} `{E : Engines Stream App}.
Implicit Types (st : @ExecState Stream).

(** C1.  Partition.  When [execute_filters] returns, the filter set falls
    into two parts that together are a rearrangement of its entries and
    have no key in common: the filters of the tier of the controller
    ([executed]) and the others ([delegated]).  The engines have been run
    on the filters of [executed], one call for each, and on no other: the
    calls made, with the streams they were given and returned, are those of
    the composition of the engines over [executed], and [o1] is the object
    as that composition left it.  The header [CRYSTAL-FILTERS] of the
    object is then the encoding of [delegated], or, when [delegated] is
    empty, what the engines left there; no other header has been written
    ([Content-Length] apart, which follows the body of a response). *)
Theorem execute_filters_partition
    self d app v a c o m st st' :
  dict_wf d →
  execute_filters self d app v a c o m st = (st', Returned tt) →
  ∃ executed delegated o1 calls out,
    executed ++ delegated ≡ₚ d ∧
    (∀ k, k ∈ executed.*1 → k ∉ delegated.*1) ∧
    (∀ k fd, (k, fd) ∈ executed → is_local self fd = true) ∧
    (∀ k fd, (k, fd) ∈ delegated → is_local self fd = false) ∧
    spec_composition self (request_data app v a c o m) executed.*2
      None (req_resp st) None
    = (o1, calls, Returned out) ∧
    invoked st' = invoked st ++ calls ∧
    inv_filter <$> calls = executed.*2 ∧
    headers (req_resp st') !! "CRYSTAL-FILTERS"
    = match delegated with
      | [] => headers o1 !! "CRYSTAL-FILTERS"
      | _ => Some (HJson (json_dumps delegated))
      end ∧
    ∀ name, name ≠ "CRYSTAL-FILTERS" → name ≠ "Content-Length" →
            headers (req_resp st') !! name = headers o1 !! name.
Proof.
  intros Hwf Hrun. rewrite execute_filters_composition in Hrun by done.
  destruct (spec_composition _ _ _ _ _ _) as [[o1 calls] [out|e]] eqn:Happ;
    [|done].
  injection Hrun as <-.
  exists (local_part self d), (other_part self d), o1, calls, out.
  destruct (spec_composition_calls _ _ _ _ _ _ _ _ _ Happ)
    as (_ & _ & _ & _ & _ & Hret).
  destruct (Hret _ eq_refl) as [Hf _].
  cbn [req_resp invoked]. split_and!; try done.
  - by apply parts_Permutation.
  - pose proof (parts_Permutation self d Hwf) as Hp.
    assert (NoDup (local_part self d ++ other_part self d).*1) as Hnd.
    { rewrite Hp. apply Hwf. }
    rewrite fmap_app in Hnd. apply NoDup_app in Hnd as (_ & Hdisj & _).
    apply Hdisj.
  - intros k fd. rewrite elem_of_local_part. tauto.
  - intros k fd. rewrite elem_of_other_part. tauto.
  - rewrite with_body_header_ne by done. unfold with_delegation.
    destruct (other_part self d); [done|]. cbn.
    by rewrite lookup_insert_eq.
  - intros name Hn1 Hn2. rewrite with_body_header_ne by done.
    unfold with_delegation. destruct (dict_truthy _); [|done].
    cbn. by rewrite lookup_insert_ne.
Qed.

(** C2.  Ordering.  A run of [execute_filters] is the composition of the
    engines over the local-tier subset of the filter set taken in strictly
    ascending order of the keys: the engine calls made, each with the
    stream it was given and what it gave back, are the calls of that
    composition, the exception of a failing run is the one that ended it,
    and the object is the object the composition left ([o1]), with the
    delegation header and the new body written to it when the run returns.
    The run is the same for every order in which the dict hands out its
    entries. *)
Theorem execute_filters_order
    self d app v a c o m st st' r :
  dict_wf d →
  execute_filters self d app v a c o m st = (st', r) →
  ∃ o1 calls res,
    spec_composition self (request_data app v a c o m)
      (local_part self d).*2 None (req_resp st) None
    = (o1, calls, res) ∧
    StronglySorted key_lt (local_part self d).*1 ∧
    (∀ k fd, (k, fd) ∈ local_part self d ↔
             dict_get k d = Some fd ∧ is_local self fd = true) ∧
    invoked st' = invoked st ++ calls ∧
    inv_filter <$> calls `prefix_of` (local_part self d).*2 ∧
    match res with
    | Returned out =>
        r = Returned tt ∧
        inv_filter <$> calls = (local_part self d).*2 ∧
        req_resp st'
        = with_body (dict_truthy (local_part self d)) out
            (with_delegation (other_part self d) o1)
    | Raised e => r = Raised e ∧ req_resp st' = o1
    end ∧
    ∀ d', d' ≡ₚ d →
          execute_filters self d' app v a c o m st = (st', r).
Proof.
  intros Hwf Hrun. pose proof Hrun as Hrun0.
  rewrite execute_filters_composition in Hrun by done.
  destruct (spec_composition _ _ _ _ _ _) as [[o1 calls] res] eqn:Happ.
  exists o1, calls, res.
  destruct (spec_composition_calls _ _ _ _ _ _ _ _ _ Happ)
    as (_ & _ & Hpre & _ & _ & Hret).
  assert (invoked st' = invoked st ++ calls) as Hinv
    by (destruct res; by injection Hrun as <- <-).
  split_and!; try done.
  - by apply local_part_ascending.
  - apply elem_of_local_part.
  - destruct res as [out|e]; injection Hrun as <- <-; [|done].
    by destruct (Hret _ eq_refl).
  - intros d' Hp. rewrite <-Hrun0.
    unfold execute_filters, execute_filters_loop, py_bind.
    assert (sorted (dict_keys d') = sorted (dict_keys d)) as ->.
    { apply sorted_Permutation_eq. unfold dict_keys. by rewrite Hp. }
    erewrite py_for_ext; [done|].
    intros k loc s _. unfold filter_step.
    by rewrite (dict_get_Permutation d d') by done.
Qed.

(** C4.  Directional body replacement.  When [execute_filters] returns,
    [out] being the stream the composition of the engines over the local
    filters ends with (each engine fed the stream of the one before, the
    first one [None]) and [o1] the object as the engines left it: if the
    set has a local filter, [out] is stored in [environ['wsgi.input']] of a
    request, whose [app_iter] stays as the engines left it, and in
    [app_iter] of a response, whose [environ['wsgi.input']] stays as the
    engines left it; if the set has no local filter, no engine has run and
    both are as they were. *)
Theorem execute_filters_body
    self d app v a c o m st st' :
  dict_wf d →
  execute_filters self d app v a c o m st = (st', Returned tt) →
  ∃ o1 calls out,
    spec_composition self (request_data app v a c o m)
      (local_part self d).*2 None (req_resp st) None
    = (o1, calls, Returned out) ∧
    invoked st' = invoked st ++ calls ∧
    chained None calls ∧
    final_stream None calls = out ∧
    (calls = [] ↔ local_part self d = []) ∧
    is_request (req_resp st') = is_request (req_resp st) ∧
    (local_part self d ≠ [] →
       if is_request (req_resp st)
       then environ (req_resp st') !! "wsgi.input" = Some (EnvBody out) ∧
            app_iter (req_resp st') = app_iter o1
       else app_iter (req_resp st') = out ∧
            environ (req_resp st') !! "wsgi.input"
            = environ o1 !! "wsgi.input") ∧
    (local_part self d = [] →
       o1 = req_resp st ∧
       environ (req_resp st') !! "wsgi.input"
       = environ (req_resp st) !! "wsgi.input" ∧
       app_iter (req_resp st') = app_iter (req_resp st)).
Proof.
  intros Hwf Hrun. rewrite execute_filters_composition in Hrun by done.
  destruct (spec_composition _ _ _ _ _ _) as [[o1 calls] [out|e]] eqn:Happ;
    [|done].
  injection Hrun as <-. exists o1, calls, out.
  destruct (spec_composition_calls _ _ _ _ _ _ _ _ _ Happ)
    as (Hch & Hcls & _ & Hnil & _ & Hret).
  destruct (Hret _ eq_refl) as [Hf Hfin].
  pose proof (with_delegation_body (other_part self d) o1) as [Henv Hit].
  pose proof (with_delegation_is_request (other_part self d) o1) as Hd.
  assert (calls = [] ↔ local_part self d = []) as Hcalls.
  { split.
    - intros ->. symmetry in Hf. by apply fmap_nil_inv in Hf.
    - intros Hl. rewrite Hl in Hf. by apply fmap_nil_inv in Hf. }
  cbn [req_resp invoked]. split_and!; try done.
  - by rewrite with_body_is_request, Hd.
  - intros Hne. rewrite <-Hcls. unfold with_body.
    destruct (local_part self d) eqn:Hl; [done|]. cbn [dict_truthy].
    rewrite Hd.
    destruct (is_request o1); cbn; rewrite ?Henv, ?Hit; [|done].
    by rewrite lookup_insert_eq.
  - intros Hl. assert (o1 = req_resp st) as -> by (apply Hnil; tauto).
    rewrite Hl. unfold with_body. cbn [dict_truthy].
    by rewrite Henv, Hit.
Qed.
(** C7, as amended.  When a call of an execution engine raises, the
    exception [execute_filters] raises is that very exception, unchanged,
    and the failing call is the last engine call of the run: the
    controller neither catches the exception nor calls the engine again. *)
Theorem engine_failure_propagates
    self d app v a c o m st st' r i e :
  dict_wf d →
  execute_filters self d app v a c o m st = (st', r) →
  i ∈ drop (length (invoked st)) (invoked st') →
  inv_result i = Raised e →
  r = Raised e ∧ last (invoked st') = Some i.
Proof.
  intros Hwf Hrun Hi He.
  destruct (execute_filters_inv _ _ _ _ _ _ _ _ _ _ _ Hwf Hrun)
    as (new & Hnew & Hch & Hraised & _).
  rewrite Hnew, drop_app_length in Hi. split; [eauto|].
  rewrite Hnew, last_app.
  by rewrite (chained_raised_last _ _ _ _ Hch Hi He).
Qed.
End ExecuteClaims.

(** ** The hooks of the handler *)

Lemma filtered_filter_list_foldl point (acc d : list (Key * FilterData)) :
  NoDup (dict_keys (acc ++ d)) →
  foldl (λ acc kv, if bool_decide (when kv.2 = point)
                   then dict_set kv.1 kv.2 acc else acc) acc d
  = acc ++ filter (λ kv, when kv.2 = point) d.
Proof.
  revert acc. induction d as [|[k fd] d IH]; intros acc Hnd; simpl.
  - by rewrite app_nil_r.
  - rewrite (cons_middle _ acc d), app_assoc in Hnd.
    assert (k ∉ dict_keys acc) as Hk.
    { unfold dict_keys in Hnd. rewrite !fmap_app in Hnd.
      apply NoDup_app in Hnd as [Hnd _].
      apply NoDup_app in Hnd as (_ & Hdisj & _).
      intros Hin. apply (Hdisj k Hin). apply list_elem_of_here. }
    rewrite filter_cons. simpl. case_bool_decide as Hw.
    + rewrite decide_True by done.
      rewrite dict_set_fresh by done. rewrite IH by done.
      by rewrite <-app_assoc.
    + rewrite decide_False by done. apply IH.
      unfold dict_keys in *. rewrite !fmap_app in Hnd |- *.
      apply NoDup_app in Hnd as (Hacc & Hdisj & Hd).
      rewrite fmap_app in Hacc, Hdisj.
      apply NoDup_app in Hacc as [Hacc _].
      apply NoDup_app. split_and!; [done| |done].
      intros x Hx. apply Hdisj. apply elem_of_app. by left.
Qed.

(** On a dict, the loop at the head of a hook selects the filters of the
    point. *)
Lemma filtered_filter_list_filter point d :
  dict_wf d →
  filtered_filter_list point d = filter (λ kv, when kv.2 = point) d.
Proof. intros. by apply (filtered_filter_list_foldl point []). Qed.

Lemma filtered_filter_list_wf point d :
  dict_wf d → dict_wf (filtered_filter_list point d).
Proof.
  intros Hwf. rewrite filtered_filter_list_filter by done.
  unfold dict_wf, dict_keys.
  eapply sublist_NoDup; [apply Hwf|]. apply fmap_sublist, sublist_filter.
Qed.

Lemma filtered_filter_list_nil point d :
  Forall (λ kv, when kv.2 ≠ point) d → filtered_filter_list point d = [].
Proof.
  intros Hall. unfold filtered_filter_list.
  generalize (@nil (Key * FilterData)).
  induction Hall as [|[k fd] d Hw _ IH]; intros acc; [done|].
  simpl in *. by rewrite bool_decide_eq_false_2.
Qed.

Lemma filtered_filter_list_truthy point d :
  dict_wf d → Exists (λ kv, when kv.2 = point) d →
  dict_truthy (filtered_filter_list point d) = true.
Proof.
  intros Hwf (kv & Hin & Hw)%Exists_exists.
  rewrite filtered_filter_list_filter by done.
  assert (kv ∈ filter (λ kv, when kv.2 = point) d) as Hf
    by (by apply list_elem_of_filter).
  destruct (filter _ d); [by apply elem_of_nil in Hf|done].
Qed.

Section HandlerFacts.
Context {Stream App : Type} `{E : Engines Stream App} `{T : Tier Stream App}.
Implicit Types (self : CrystalBaseHandler Stream App).
Implicit Types (hs : HookState Stream App).

Lemma pop_environ_absent name (o : ReqResp Stream) :
  environ o !! name = None → pop_environ name o = o.
Proof.
  intros Hn. destruct o. unfold pop_environ. simpl in *.
  by rewrite delete_id.
Qed.

(** What the setter does, by the outcome of [_parse_vaco]. *)
Lemma request_setter_eq request self :
  request_setter request self
  = match _parse_vaco request with
    | Returned vaco =>
        (with_vaco vaco (with_request request self), Returned tt)
    | Raised e =>
        (with_request request self,
         Raised (if isinstance_exc e "ValueError"
                 then NotCrystalRequest else e))
    end.
Proof.
  unfold request_setter, py_bind, py_modify, except_ValueError,
    _extract_vaco.
  cbn [_request with_request].
  destruct (_parse_vaco request) as [vaco|e]; [done|].
  by destruct (isinstance_exc e "ValueError").
Qed.

(** What [apply_filters_on_pre_put] does when filters are registered for
    the point, by the outcomes of [execute_filters] and of the setter. *)
Lemma apply_filters_on_pre_put_eq d hs :
  dict_truthy (filtered_filter_list "on_pre_put" d) = true →
  apply_filters_on_pre_put d hs
  = match call_execute_filters (this hs) (_request (this hs))
            (filtered_filter_list "on_pre_put" d) (engine_calls hs) with
    | (o, calls, Raised e) =>
        ({| this := with_request o (this hs); engine_calls := calls |},
         Raised e)
    | (o, calls, Returned _) =>
        match _parse_vaco o with
        | Raised e =>
            ({| this := with_request o (this hs); engine_calls := calls |},
             Raised (if isinstance_exc e "ValueError"
                     then NotCrystalRequest else e))
        | Returned vaco =>
            ({| this := with_request
                          (set_header "Transfer-Encoding" (HText "chunked")
                             (pop_environ "CONTENT_LENGTH" o))
                          (with_vaco vaco (with_request o (this hs)));
                engine_calls := calls |},
             Returned tt)
        end
    end.
Proof.
  intros Hne. unfold apply_filters_on_pre_put. rewrite Hne.
  unfold py_bind at 1. unfold _call_filter_control_on_put, request_getter.
  destruct (call_execute_filters _ _ _ _) as [[o calls] [[]|e]]; [|done].
  unfold py_bind at 1. unfold py_bind at 1. unfold py_get at 1.
  unfold assign_request. cbn [this engine_calls request_getter].
  rewrite request_setter_eq. cbn [_request with_request].
  destruct (_parse_vaco o) as [[[[v a] c] ob]|e]; [|done].
  unfold py_bind, py_get, on_request, py_modify, py_ret.
  cbn [this engine_calls request_getter _request with_request with_vaco].
  case_bool_decide as Hcl; [done|].
  rewrite pop_environ_absent; [done|].
  by apply eq_None_not_Some.
Qed.
End HandlerFacts.

(** A filter set with no local filter: every filter is delegated, no
    collaborator is called, and the run returns. *)
Section AllDelegated.
Context {Stream App : Type} `{E : Engines Stream App}.
Context (self : CrystalFilterControl) (rd : RequestData App).
Context (d : list (Key * FilterData)).

Lemma loop_all_delegated ks : ∀ loc (st : @ExecState Stream),
  Forall (λ k, ∃ fd, dict_get k d = Some fd ∧ is_local self fd = false) ks →
  py_for ks (filter_step self rd d) loc st
  = (st, Returned
           {| on_other_server :=
                foldl (λ acc kv, dict_set kv.1 kv.2 acc)
                      (on_other_server loc) (items_at d ks);
              filter_executed := filter_executed loc;
              storlet_gw := storlet_gw loc;
              cur_app_iter := cur_app_iter loc |}).
Proof.
  induction ks as [|k ks IH]; intros loc st Hall.
  - by destruct loc.
  - apply Forall_cons in Hall as [(fd & Hget & Hloc) Hall].
    rewrite (items_at_cons_Some _ _ _ _ Hget). simpl.
    unfold py_bind, filter_step. rewrite Hget.
    unfold is_local in Hloc. rewrite Hloc. unfold py_ret at 1.
    by rewrite IH.
Qed.
End AllDelegated.

Lemma execute_filters_all_delegated {Stream App} `{E : Engines Stream App}
    self d app v a c o m (st : @ExecState Stream) :
  dict_wf d →
  Forall (λ kv, is_local self kv.2 = false) d →
  execute_filters self d app v a c o m st
  = ({| req_resp := with_delegation (sorted_items d) (req_resp st);
        invoked := invoked st |}, Returned tt).
Proof.
  intros Hwf Hall. unfold execute_filters, execute_filters_loop.
  unfold py_bind at 1. rewrite loop_all_delegated.
  - rewrite execute_filters_finish_eq.
    cbn [on_other_server filter_executed cur_app_iter initial_locals
         req_resp invoked with_body].
    fold (sorted_items d).
    rewrite (foldl_dict_set_fresh []); [done|].
    simpl. unfold dict_keys. rewrite sorted_items_keys.
    by apply sorted_NoDup.
  - apply Forall_forall. intros k Hk. rewrite sorted_elem_of in Hk.
    apply dict_get_is_Some in Hk as [fd Hfd]. exists fd. split; [done|].
    apply dict_get_Some_elem_of in Hfd.
    rewrite Forall_forall in Hall. by apply (Hall (k, fd)).
Qed.

(** ** The claims about the handler *)

Section HandlerClaims.
Context {Stream App : Type} `{E : Engines Stream App} `{T : Tier Stream App}.
Implicit Types (self : CrystalBaseHandler Stream App).
Implicit Types (hs : HookState Stream App).

(** C3.  Content-length invalidation.  When filters are registered for
    [on_pre_put] and the hook returns, the request it leaves has no
    [CONTENT_LENGTH] in its environment and carries [Transfer-Encoding:
    chunked]; the hook does return whenever [execute_filters] returns and
    the path of the request it hands back parses.  When no filter is
    registered for [on_pre_put], the hook returns and nothing has changed,
    the content length included. *)
Theorem pre_put_drops_content_length d hs hs' :
  dict_wf d →
  (Exists (λ kv, when kv.2 = "on_pre_put") d →
   apply_filters_on_pre_put d hs = (hs', Returned tt) →
   environ (request_getter (this hs')) !! "CONTENT_LENGTH" = None ∧
   headers (request_getter (this hs')) !! "Transfer-Encoding"
     = Some (HText "chunked")) ∧
  (Exists (λ kv, when kv.2 = "on_pre_put") d →
   ∀ o calls vaco,
     call_execute_filters (this hs) (request_getter (this hs))
       (filtered_filter_list "on_pre_put" d) (engine_calls hs)
     = (o, calls, Returned tt) →
     _parse_vaco o = Returned vaco →
     ∃ hs1, apply_filters_on_pre_put d hs = (hs1, Returned tt)) ∧
  (Forall (λ kv, when kv.2 ≠ "on_pre_put") d →
   apply_filters_on_pre_put d hs = (hs, Returned tt)).
Proof.
  intros Hwf. split_and!.
  - intros Hex. rewrite apply_filters_on_pre_put_eq
      by (by apply filtered_filter_list_truthy).
    destruct (call_execute_filters _ _ _ _) as [[o calls] [[]|e]]; [|done].
    destruct (_parse_vaco o) as [[[[v a] c] ob]|e]; [|done].
    intros [= <-]. cbn. split.
    + apply lookup_delete_eq.
    + apply lookup_insert_eq.
  - intros Hex o calls vaco Hcall Hparse.
    rewrite apply_filters_on_pre_put_eq
      by (by apply filtered_filter_list_truthy).
    unfold request_getter in Hcall. rewrite Hcall, Hparse. eauto.
  - intros Hall. unfold apply_filters_on_pre_put.
    by rewrite filtered_filter_list_nil.
Qed.

(** C10.  When every filter registered for [on_pre_put] belongs to the
    other tier, the hook (the path of the request still parsing once the
    delegation header is on it) makes no engine call, leaves the body
    stream as it was, puts the filters in the delegation header, removes
    [CONTENT_LENGTH] and sets [Transfer-Encoding: chunked]. *)
Theorem pre_put_all_delegated d hs vaco :
  dict_wf d →
  Exists (λ kv, when kv.2 = "on_pre_put") d →
  Forall (λ kv, when kv.2 = "on_pre_put" →
                is_local (filter_control (this hs)) kv.2 = false) d →
  _parse_vaco
    (set_header "CRYSTAL-FILTERS"
       (HJson (json_dumps
                 (sorted_items (filtered_filter_list "on_pre_put" d))))
       (request_getter (this hs)))
  = Returned vaco →
  ∃ hs',
    apply_filters_on_pre_put d hs = (hs', Returned tt) ∧
    engine_calls hs' = engine_calls hs ∧
    environ (request_getter (this hs')) !! "CONTENT_LENGTH" = None ∧
    environ (request_getter (this hs')) !! "wsgi.input"
    = environ (request_getter (this hs)) !! "wsgi.input" ∧
    app_iter (request_getter (this hs'))
    = app_iter (request_getter (this hs)) ∧
    headers (request_getter (this hs')) !! "CRYSTAL-FILTERS"
    = Some (HJson (json_dumps
                     (sorted_items
                        (filtered_filter_list "on_pre_put" d)))) ∧
    headers (request_getter (this hs')) !! "Transfer-Encoding"
    = Some (HText "chunked").
Proof.
  intros Hwf Hex Hall Hparse.
  pose proof (filtered_filter_list_truthy _ _ Hwf Hex) as Hne.
  rewrite apply_filters_on_pre_put_eq by done.
  unfold call_execute_filters, request_getter in *.
  rewrite execute_filters_all_delegated; first last.
  { rewrite filtered_filter_list_filter by done.
    apply Forall_forall. intros kv [Hw Hin]%list_elem_of_filter.
    eapply Forall_forall in Hall; eauto. }
  { by apply filtered_filter_list_wf. }
  cbn [req_resp invoked].
  assert (dict_truthy (sorted_items (filtered_filter_list "on_pre_put" d))
          = true) as Hs.
  { destruct (sorted_items _) eqn:Hnil; [|done].
    apply (f_equal length) in Hnil.
    rewrite sorted_items_Permutation in Hnil
      by (by apply filtered_filter_list_wf).
    by destruct (filtered_filter_list "on_pre_put" d). }
  unfold with_delegation. rewrite Hs, Hparse.
  destruct vaco as [[[v a] c] ob].
  eexists. split; [done|]. cbn. split_and!; try done.
  - apply lookup_delete_eq.
  - by rewrite lookup_delete_ne.
  - by rewrite lookup_insert_ne, lookup_insert_eq.
  - apply lookup_insert_eq.
Qed.
End HandlerClaims.

Section HandlerClaims2.
Context {Stream App : Type} `{E : Engines Stream App} `{T : Tier Stream App}.
Implicit Types (self : CrystalBaseHandler Stream App).
Implicit Types (hs : HookState Stream App).

(** C5.  Eligibility exclusions.  For a request into one of the reserved
    containers of the handler, and for a request without an object (the
    object being [None] or the empty string), [is_crystal_valid_request]
    never gives a true value, whatever the tier, the account and its
    metadata: it returns a false value, unless the account lookup of the
    proxy tier raises, in which case it raises that. *)
Theorem reserved_or_objectless_not_eligible self :
  container self ∈ sds_containers self ∨
  obj self = None ∨ obj self = Some "" →
  match is_crystal_valid_request self with
  | Returned v => truthy v = false
  | Raised e =>
      h_server self = Some "proxy" ∧
      get_account_info (environ (request_getter self)) (app self)
      = Raised e
  end.
Proof.
  intros Hcase. unfold is_crystal_valid_request.
  assert (∀ b, truthy (py_and (py_and
            (PyBool (negb (bool_decide
                             (container self ∈ sds_containers self))))
            (PyString (obj self))) (PyBool b)) = false) as Hfalse.
  { intros b. destruct Hcase as [Hc|[Ho|Ho]].
    - by rewrite bool_decide_eq_true_2.
    - rewrite Ho. by destruct (bool_decide _).
    - rewrite Ho. by destruct (bool_decide _). }
  destruct (bool_decide (h_server self = Some "proxy")) eqn:Hsrv;
    [|apply Hfalse].
  apply bool_decide_eq_true_1 in Hsrv.
  unfold is_account_storlet_enabled.
  destruct (get_account_info _ _) as [meta|e]; [|done].
  destruct (config_true_value _); apply Hfalse.
Qed.

(** The reserved containers of a handler are the three names of its
    configuration. *)
Lemma init_sds_containers request conf app0 fc self :
  CrystalBaseHandler_init request conf app0 fc = Returned self →
  sds_containers self
  = [conf !! "storlet_container"; conf !! "storlet_dependency";
     Some (default "docker_images" (conf !! "storlet_images"))].
Proof.
  unfold CrystalBaseHandler_init. rewrite request_setter_eq.
  destruct (_parse_vaco request) as [[[[v a] c] ob]|e]; [|done].
  by intros [= <-].
Qed.

(** C9.  A filter set with no filter for the point of a hook, the empty
    set above all, makes the hook the identity: it returns, and the handler
    with its request, the response and the record of engine calls are what
    they were.  [execute_filters] on the empty set is the identity too. *)
Theorem empty_filter_set_identity d hs resp ctl app0 v a c o m st :
  (Forall (λ kv, when kv.2 ≠ "on_pre_get") d →
   apply_filters_on_pre_get d hs = (hs, Returned tt)) ∧
  (Forall (λ kv, when kv.2 ≠ "on_post_get") d →
   apply_filters_on_post_get d (hs, resp) = ((hs, resp), Returned tt)) ∧
  (Forall (λ kv, when kv.2 ≠ "on_pre_put") d →
   apply_filters_on_pre_put d hs = (hs, Returned tt)) ∧
  apply_filters_on_pre_get [] hs = (hs, Returned tt) ∧
  apply_filters_on_post_get [] (hs, resp) = ((hs, resp), Returned tt) ∧
  apply_filters_on_pre_put [] hs = (hs, Returned tt) ∧
  execute_filters ctl [] app0 v a c o m st = (st, Returned tt).
Proof.
  split_and!; try done.
  - intros Hall. unfold apply_filters_on_pre_get.
    by rewrite filtered_filter_list_nil.
  - intros Hall. unfold apply_filters_on_post_get.
    by rewrite filtered_filter_list_nil.
  - intros Hall. unfold apply_filters_on_pre_put.
    by rewrite filtered_filter_list_nil.
Qed.
End HandlerClaims2.

(** ** The delegation header on its way to the peer *)






(** A name is read as an integer only if it is the decimal writing of that
    integer. *)
Lemma integer_of_string_Some s n : integer_of_string s = Some n → s = pretty n.
Proof.
  unfold integer_of_string.
  destruct (match s with
            | EmptyString => None
            | String c s' => _
            end) as [n'|]; [|done].
  case_decide; [|done]. by intros [= <-].
Qed.




Section DelegationClaims.
Context {Stream App : Type} `{E : Engines Stream App}.

End DelegationClaims.

(** ** The request property on a rejected assignment *)

(** C8.  The handler for [/v1/AUTH_a/c/o] is assigned a request whose path
    does not parse.  The assignment raises [NotCrystalRequest], and the
    handler is left holding the rejected request next to the version,
    account, container and object of the request before it: the request
    attribute has been set before the path is parsed. *)
Theorem rejected_assignment_keeps_request :
  CrystalBaseHandler_init (Sample.put_request "/v1/AUTH_a/c/o")
    Sample.proxy_conf tt Sample.proxy_control
  = Returned Sample.handler0 ∧
  ∃ self',
    request_setter (Sample.put_request "/v1") Sample.handler0
    = (self', Raised NotCrystalRequest) ∧
    request_getter self' = Sample.put_request "/v1" ∧
    request_getter self' ≠ request_getter Sample.handler0 ∧
    (api_version self', account self', container self', obj self')
    = (Some "v1", Some "AUTH_a", Some "c", Some "o") ∧
    _parse_vaco (request_getter self')
    = Raised (ValueError "Invalid path: /v1").
Proof.
  split; [by vm_compute|].
  eexists. split; [by vm_compute|].
  by split_and!.
Qed.

(** On every tier: when the path of the assigned request does not parse, the
    handler holds that request all the same, with the four parsed attributes
    it had. *)
Lemma request_setter_rejected {Stream App} `{T : Tier Stream App}
    (request : ReqResp Stream) (self : CrystalBaseHandler Stream App) e :
  _parse_vaco request = Raised e →
  ∃ self' e',
    request_setter request self = (self', Raised e') ∧
    request_getter self' = request ∧
    (api_version self', account self', container self', obj self')
    = (api_version self, account self, container self, obj self).
Proof.
  intros Hp. rewrite request_setter_eq, Hp. by eexists _, _.
Qed.

(** ** Runs on the sample tier *)

(** C7, as the spec has it, fails: the sandbox of the filter at key [0]
    exits, the engine raises [RuntimeError], and [execute_filters] raises
    that [RuntimeError]; it is no [FilterExecutionError] and does not carry
    the entry point of the filter. *)
Lemma engine_failure_is_not_wrapped :
  ∃ st' e,
    Sample.run Sample.failing_scenario Sample.st0 = (st', Raised e) ∧
    invoked st' = [Sample.broken_call] ∧
    inv_result Sample.broken_call = Raised e ∧
    ¬ FilterExecutionError_carrying (main (inv_filter Sample.broken_call)) e.
Proof.
  eexists _, _. split; [by vm_compute|].
  split_and!; [done..|]. by vm_compute; intros [[] _].
Qed.

(** The scenario of the spec on engines that leave a trail on the request:
    keys 1 and 2 run on the proxy in this order, key 3 goes into the
    header. *)
Lemma execute_filters_partition_witness :
  let run := execute_filters (E := SampleMore.marking) Sample.proxy_control
               Sample.scenario tt (Some "v1") (Some "AUTH_a") (Some "c")
               (Some "o") "put" Sample.st0 in
  let st' := run.1 in
  dict_wf Sample.scenario ∧
  run = (st', Returned tt) ∧
  headers (req_resp st') !! "X-Filters-Run"
  = Some (HText "compress-1.0.jar;crypto.aes.Encrypt;") ∧
  headers (req_resp st') !! "CRYSTAL-FILTERS"
  = Some (HJson (json_dumps [(KInt 3, Sample.audit)])) ∧
  ∃ executed delegated o1 calls out,
    executed ++ delegated ≡ₚ Sample.scenario ∧
    (∀ k, k ∈ executed.*1 → k ∉ delegated.*1) ∧
    (∀ k fd, (k, fd) ∈ executed → is_local Sample.proxy_control fd = true) ∧
    (∀ k fd, (k, fd) ∈ delegated → is_local Sample.proxy_control fd = false) ∧
    spec_composition (E := SampleMore.marking) Sample.proxy_control
      (request_data tt (Some "v1") (Some "AUTH_a") (Some "c") (Some "o")
         "put")
      executed.*2 None (req_resp Sample.st0) None
    = (o1, calls, Returned out) ∧
    invoked st' = invoked Sample.st0 ++ calls ∧
    inv_filter <$> calls = executed.*2 ∧
    headers (req_resp st') !! "CRYSTAL-FILTERS"
    = match delegated with
      | [] => headers o1 !! "CRYSTAL-FILTERS"
      | _ => Some (HJson (json_dumps delegated))
      end ∧
    ∀ name, name ≠ "CRYSTAL-FILTERS" → name ≠ "Content-Length" →
            headers (req_resp st') !! name = headers o1 !! name.
Proof.
  intros run st'. split; [compute_done|]. split; [by vm_compute|].
  split; [by vm_compute|]. split; [by vm_compute|].
  apply (execute_filters_partition (E := SampleMore.marking)
           Sample.proxy_control Sample.scenario tt
           (Some "v1") (Some "AUTH_a") (Some "c") (Some "o") "put").
  - compute_done.
  - by vm_compute.
Defined.

(** The same scenario on the engines of [Sample]: [encrypt] is given what
    [compress] returned. *)
Lemma execute_filters_order_witness :
  let st' := (Sample.run Sample.scenario Sample.st0).1 in
  dict_wf Sample.scenario ∧
  Sample.run Sample.scenario Sample.st0 = (st', Returned tt) ∧
  invoked st'
  = [mkInvocation Storlet Sample.compress None
       (Returned (Some "compress-1.0.jar(body)"));
     mkInvocation Native Sample.encrypt (Some "compress-1.0.jar(body)")
       (Returned (Some "crypto.aes.Encrypt(compress-1.0.jar(body))"))] ∧
  ∃ o1 calls res,
    spec_composition Sample.proxy_control
      (request_data tt (Some "v1") (Some "AUTH_a") (Some "c") (Some "o")
         "put")
      (local_part Sample.proxy_control Sample.scenario).*2
      None (req_resp Sample.st0) None
    = (o1, calls, res) ∧
    StronglySorted key_lt (local_part Sample.proxy_control Sample.scenario).*1 ∧
    (∀ k fd, (k, fd) ∈ local_part Sample.proxy_control Sample.scenario ↔
             dict_get k Sample.scenario = Some fd ∧
             is_local Sample.proxy_control fd = true) ∧
    invoked st' = invoked Sample.st0 ++ calls ∧
    inv_filter <$> calls
      `prefix_of` (local_part Sample.proxy_control Sample.scenario).*2 ∧
    match res with
    | Returned out =>
        Returned tt = Returned tt ∧
        inv_filter <$> calls
        = (local_part Sample.proxy_control Sample.scenario).*2 ∧
        req_resp st'
        = with_body
            (dict_truthy (local_part Sample.proxy_control Sample.scenario))
            out
            (with_delegation
               (other_part Sample.proxy_control Sample.scenario) o1)
    | Raised e => Returned tt = Raised e ∧ req_resp st' = o1
    end ∧
    ∀ d', d' ≡ₚ Sample.scenario →
          Sample.run d' Sample.st0 = (st', Returned tt).
Proof.
  intros st'. split; [compute_done|]. split; [by vm_compute|].
  split; [by vm_compute|].
  apply (execute_filters_order Sample.proxy_control Sample.scenario tt
           (Some "v1") (Some "AUTH_a") (Some "c") (Some "o") "put").
  - compute_done.
  - by vm_compute.
Defined.

(** The scenario of the spec on a request and on a response: the stream of
    the chain goes to [wsgi.input] of the one and to [app_iter] of the
    other. *)
Lemma execute_filters_body_witness :
  let st := {| req_resp := Sample.get_response; invoked := [] |} in
  let put' := (Sample.run Sample.scenario Sample.st0).1 in
  let get' := (Sample.run Sample.scenario st).1 in
  let rd := request_data tt (Some "v1") (Some "AUTH_a") (Some "c")
              (Some "o") "put" in
  let fds := (local_part Sample.proxy_control Sample.scenario).*2 in
  let out := Some "crypto.aes.Encrypt(compress-1.0.jar(body))" in
  dict_wf Sample.scenario ∧
  Sample.run Sample.scenario Sample.st0 = (put', Returned tt) ∧
  Sample.run Sample.scenario st = (get', Returned tt) ∧
  local_part Sample.proxy_control Sample.scenario ≠ [] ∧
  (environ (req_resp put') !! "wsgi.input" = Some (EnvBody out) ∧
   app_iter (req_resp put') = None) ∧
  (app_iter (req_resp get') = out ∧
   environ (req_resp get') !! "wsgi.input" = None) ∧
  ∃ o1 calls out',
    spec_composition Sample.proxy_control rd fds None Sample.get_response None
    = (o1, calls, Returned out') ∧
    invoked get' = invoked st ++ calls ∧
    chained None calls ∧
    final_stream None calls = out' ∧
    (calls = [] ↔ local_part Sample.proxy_control Sample.scenario = []) ∧
    is_request (req_resp get') = is_request (req_resp st) ∧
    (local_part Sample.proxy_control Sample.scenario ≠ [] →
       if is_request (req_resp st)
       then environ (req_resp get') !! "wsgi.input" = Some (EnvBody out') ∧
            app_iter (req_resp get') = app_iter o1
       else app_iter (req_resp get') = out' ∧
            environ (req_resp get') !! "wsgi.input"
            = environ o1 !! "wsgi.input") ∧
    (local_part Sample.proxy_control Sample.scenario = [] →
       o1 = req_resp st ∧
       environ (req_resp get') !! "wsgi.input"
       = environ (req_resp st) !! "wsgi.input" ∧
       app_iter (req_resp get') = app_iter (req_resp st)).
Proof.
  intros st put' get' rd fds out.
  assert (local_part Sample.proxy_control Sample.scenario ≠ []) as Hne
    by (by vm_compute).
  split; [compute_done|]. split; [by vm_compute|]. split; [by vm_compute|].
  split; [done|].
  destruct (execute_filters_body Sample.proxy_control Sample.scenario tt
              (Some "v1") (Some "AUTH_a") (Some "c") (Some "o") "put"
              Sample.st0 put')
    as (o1 & calls & out1 & Happ & _ & _ & _ & _ & _ & Hput & _);
    [compute_done|by vm_compute|].
  split.
  { specialize (Hput Hne). cbn in Hput. destruct Hput as [Hin Hit].
    vm_compute in Happ. injection Happ as <- _ <-. split; [exact Hin|exact Hit]. }
  split; [by vm_compute|].
  apply (execute_filters_body Sample.proxy_control Sample.scenario tt
           (Some "v1") (Some "AUTH_a") (Some "c") (Some "o") "put" st get').
  - compute_done.
  - by vm_compute.
Defined.

Lemma engine_failure_propagates_witness :
  let st' := (Sample.run Sample.failing_scenario Sample.st0).1 in
  let e := Sample.RuntimeError "sandbox exited" in
  dict_wf Sample.failing_scenario ∧
  Sample.run Sample.failing_scenario Sample.st0 = (st', Raised e) ∧
  Sample.broken_call ∈ drop (length (invoked Sample.st0)) (invoked st') ∧
  inv_result Sample.broken_call = Raised e ∧
  Raised e = Raised (A:=unit) e ∧
  last (invoked st') = Some Sample.broken_call.
Proof.
  intros st' e.
  split; [compute_done|]. split; [by vm_compute|].
  split; [vm_compute; apply list_elem_of_here|]. split; [done|].
  apply (engine_failure_propagates Sample.proxy_control
           Sample.failing_scenario tt
           (Some "v1") (Some "AUTH_a") (Some "c") (Some "o") "put"
           Sample.st0).
  - compute_done.
  - by vm_compute.
  - vm_compute. apply list_elem_of_here.
  - done.
Defined.

(** The scenario of the spec, through the hook. *)
Lemma pre_put_drops_content_length_witness :
  let hs' := (apply_filters_on_pre_put Sample.scenario Sample.hs0).1 in
  dict_wf Sample.scenario ∧
  Exists (λ kv, when kv.2 = "on_pre_put") Sample.scenario ∧
  apply_filters_on_pre_put Sample.scenario Sample.hs0 = (hs', Returned tt) ∧
  environ (request_getter (this Sample.hs0)) !! "CONTENT_LENGTH"
  = Some (EnvStr "1024") ∧
  environ (request_getter (this hs')) !! "CONTENT_LENGTH" = None ∧
  headers (request_getter (this hs')) !! "Transfer-Encoding"
  = Some (HText "chunked").
Proof.
  intros hs'.
  assert (Exists (λ kv, when kv.2 = "on_pre_put") Sample.scenario) as Hex
    by (by apply Exists_cons_hd).
  split; [compute_done|]. split; [done|]. split; [by vm_compute|].
  split; [done|].
  refine (proj1 (pre_put_drops_content_length Sample.scenario Sample.hs0 hs'
                   _) Hex _).
  - compute_done.
  - by vm_compute.
Defined.

(** Only the filter of the object tier is registered. *)
Lemma pre_put_all_delegated_witness :
  let d := [(KInt 3, Sample.audit)] in
  dict_wf d ∧
  Exists (λ kv, when kv.2 = "on_pre_put") d ∧
  Forall (λ kv, when kv.2 = "on_pre_put" →
                is_local (filter_control (this Sample.hs0)) kv.2 = false) d ∧
  ∃ hs',
    apply_filters_on_pre_put d Sample.hs0 = (hs', Returned tt) ∧
    engine_calls hs' = engine_calls Sample.hs0 ∧
    environ (request_getter (this hs')) !! "CONTENT_LENGTH" = None ∧
    environ (request_getter (this hs')) !! "wsgi.input"
    = environ (request_getter (this Sample.hs0)) !! "wsgi.input" ∧
    app_iter (request_getter (this hs'))
    = app_iter (request_getter (this Sample.hs0)) ∧
    headers (request_getter (this hs')) !! "CRYSTAL-FILTERS"
    = Some (HJson (json_dumps
                     (sorted_items
                        (filtered_filter_list "on_pre_put" d)))) ∧
    headers (request_getter (this hs')) !! "Transfer-Encoding"
    = Some (HText "chunked").
Proof.
  intros d.
  assert (Exists (λ kv, when kv.2 = "on_pre_put") d) as Hex
    by (by apply Exists_cons_hd).
  assert (Forall (λ kv, when kv.2 = "on_pre_put" →
            is_local (filter_control (this Sample.hs0)) kv.2 = false) d)
    as Hall by (by repeat constructor).
  split; [compute_done|]. split; [done|]. split; [done|].
  apply (pre_put_all_delegated d Sample.hs0
           (Some "v1", Some "AUTH_a", Some "c", Some "o"));
    [compute_done|done|done|by vm_compute].
Defined.

Lemma reserved_or_objectless_not_eligible_witness :
  (container Sample.reserved_handler ∈ sds_containers Sample.reserved_handler
   ∨ obj Sample.reserved_handler = None
   ∨ obj Sample.reserved_handler = Some "") ∧
  match is_crystal_valid_request Sample.reserved_handler with
  | Returned v => truthy v = false
  | Raised e =>
      h_server Sample.reserved_handler = Some "proxy" ∧
      get_account_info (environ (request_getter Sample.reserved_handler))
                       (app Sample.reserved_handler)
      = Raised e
  end.
Proof.
  assert (container Sample.reserved_handler
            ∈ sds_containers Sample.reserved_handler) as Hin
    by apply list_elem_of_here.
  split; [by left|].
  apply (reserved_or_objectless_not_eligible Sample.reserved_handler).
  by left.
Defined.

(** A filter set whose one filter is registered for another point. *)
Lemma empty_filter_set_identity_witness :
  let d := [(KInt 1, Sample.idle)] in
  (Forall (λ kv, when kv.2 ≠ "on_pre_get") d ∧
   Forall (λ kv, when kv.2 ≠ "on_post_get") d ∧
   Forall (λ kv, when kv.2 ≠ "on_pre_put") d) ∧
  apply_filters_on_pre_get d Sample.hs0 = (Sample.hs0, Returned tt) ∧
  apply_filters_on_post_get d (Sample.hs0, Sample.get_response)
  = ((Sample.hs0, Sample.get_response), Returned tt) ∧
  apply_filters_on_pre_put d Sample.hs0 = (Sample.hs0, Returned tt).
Proof.
  intros d.
  assert (Forall (λ kv, when kv.2 ≠ "on_pre_get") d) as H1
    by (by repeat constructor).
  assert (Forall (λ kv, when kv.2 ≠ "on_post_get") d) as H2
    by (by repeat constructor).
  assert (Forall (λ kv, when kv.2 ≠ "on_pre_put") d) as H3
    by (by repeat constructor).
  split; [done|].
  destruct (empty_filter_set_identity d Sample.hs0 Sample.get_response
              Sample.proxy_control tt None None None None "put" Sample.st0)
    as (Hget & Hpost & Hput & _).
  auto.
Defined.


(** * Further properties *)

(** ** Loading a native filter *)

Lemma rsplit_dot_dotless s : dotless s → rsplit_dot s = None.
Proof.
  unfold dotless. induction s as [|c s IH]; [done|].
  simpl. intros [Hc Hs]%not_elem_of_cons. rewrite IH by done.
  destruct (Ascii.eqb_spec c "."); [by subst|done].
Qed.

Lemma rsplit_dot_app m c :
  dotless c → rsplit_dot (m ++ String "." c) = Some (m, c).
Proof.
  intros Hc. induction m as [|x m IH]; simpl.
  - by rewrite rsplit_dot_dotless.
  - by rewrite IH.
Qed.

Section LoadNative.
Context {Stream App : Type} `{E : Engines Stream App}.

(** X1.  [_load_native_filter] splits the entry point at its last dot: for
    [main = m.c] with no dot in [c] it asks for class [c] of module
    [crystal_filter_middleware.m], handing over the filter and the
    configuration of the controller, and its outcome is the outcome of that;
    for an entry point without a dot it raises [ValueError] and asks for
    nothing. *)
Theorem load_native_filter_split (self : CrystalFilterControl) fd :
  (∀ m c, main fd = (m ++ String "." c)%string → dotless c →
          _load_native_filter self fd
          = native_class ("crystal_filter_middleware." ++ m)%string c fd
                         (conf self)) ∧
  (dotless (main fd) →
   ∃ e, _load_native_filter self fd = Raised e ∧
        isinstance_exc e "ValueError" = true).
Proof.
  split.
  - intros m c Hm Hc. unfold _load_native_filter.
    by rewrite Hm, rsplit_dot_app.
  - intros Hd. unfold _load_native_filter.
    rewrite rsplit_dot_dotless by done. by eexists.
Qed.
End LoadNative.

(** ** More on the loop of [execute_filters] *)

Lemma py_for_Returned_steps {S A X} (xs : list X) (body : X → A → Py S A) :
  ∀ acc s s' acc',
    py_for xs body acc s = (s', Returned acc') →
    Forall (λ x, ∃ acc1 s1 s2 acc2, body x acc1 s1 = (s2, Returned acc2)) xs.
Proof.
  induction xs as [|x xs IH]; intros acc s s' acc' Hrun; [constructor|].
  apply py_for_cons_inv in Hrun
    as [(s1 & acc1 & Hstep & Hrest)|(e & _ & [=])].
  constructor; eauto 10.
Qed.

Section StepFacts.
Context {Stream App : Type} `{E : Engines Stream App}.
Context (self : CrystalFilterControl) (rd : RequestData App).
Context (d : list (Key * FilterData)).
Implicit Types (loc : Locals) (st : @ExecState Stream) (k : Key).

(** One turn of the loop, by what it calls: either no engine is called and
    the object is not touched (and the turn returns only for a delegated
    filter), or the filter is local and the engine of its type is called,
    once, on the object as it stands. *)
Lemma filter_step_call k loc st st' r :
  filter_step self rd d k loc st = (st', r) →
  (st' = st ∧
   ∀ loc', r = Returned loc' →
           ∃ fd, dict_get k d = Some fd ∧ is_local self fd = false) ∨
  (∃ fd res o',
     dict_get k d = Some fd ∧ is_local self fd = true ∧
     st' = {| req_resp := o';
              invoked := invoked st
                ++ [mkInvocation
                      (if bool_decide (type fd = "storlet")
                       then Storlet else Native)
                      fd (cur_app_iter loc) res] |} ∧
     ((type fd = "storlet" ∧
       ∃ gw, (storlet_gw loc = Some gw ∨
              (storlet_gw loc = None ∧
               SDSGatewayStorlet (conf self) rd = Returned gw)) ∧
             execute_storlet gw (req_resp st) fd (cur_app_iter loc)
             = (o', res)) ∨
      (type fd ≠ "storlet" ∧
       ∃ nf, _load_native_filter self fd = Returned nf ∧
             native_execute nf (req_resp st) (cur_app_iter loc) rd
             = (o', res)))).
Proof.
  unfold filter_step, is_local.
  destruct (dict_get k d) as [fd|];
    [|intros [= <- <-]; left; split; [done|by intros ? [=]]].
  case_bool_decide as Hloc.
  2:{ intros [= <- <-]. left. split; [done|]. intros ? _. exists fd.
      by rewrite bool_decide_eq_false_2. }
  intros Hrun. case_bool_decide as Hty.
  - unfold py_bind in Hrun.
    destruct (storlet_gw loc) as [gw|] eqn:Hgw.
    + unfold py_ret, call_engine in Hrun.
      destruct (execute_storlet gw (req_resp st) fd (cur_app_iter loc))
        as [o' res] eqn:Hcall.
      right. exists fd, res, o'.
      rewrite (bool_decide_eq_true_2 (type fd = "storlet")) by done.
      destruct res; injection Hrun as <- <-;
        split_and!; eauto 10 using bool_decide_eq_true_2.
    + unfold py_lift, _setup_storlet_gateway in Hrun.
      destruct (SDSGatewayStorlet (conf self) rd) as [gw|e] eqn:Hsetup.
      2:{ injection Hrun as <- <-. left. split; [done|by intros ? [=]]. }
      unfold py_ret, call_engine in Hrun.
      destruct (execute_storlet gw (req_resp st) fd (cur_app_iter loc))
        as [o' res] eqn:Hcall.
      right. exists fd, res, o'.
      rewrite (bool_decide_eq_true_2 (type fd = "storlet")) by done.
      destruct res; injection Hrun as <- <-;
        split_and!; eauto 10 using bool_decide_eq_true_2.
  - unfold py_bind, py_lift in Hrun.
    destruct (_load_native_filter self fd) as [nf|e] eqn:Hload.
    2:{ injection Hrun as <- <-. left. split; [done|by intros ? [=]]. }
    unfold py_ret, call_engine in Hrun.
    destruct (native_execute nf (req_resp st) (cur_app_iter loc) rd)
      as [o' res] eqn:Hcall.
    right. exists fd, res, o'.
    rewrite (bool_decide_eq_false_2 (type fd = "storlet")) by done.
    destruct res; injection Hrun as <- <-;
      split_and!; eauto 10 using bool_decide_eq_true_2.
Qed.

(** The engine calls a run of the loop adds are calls for local filters of
    the dict, each by the engine of the type of its filter. *)
Lemma loop_calls_dispatch ks : ∀ loc st st' r,
  py_for ks (filter_step self rd d) loc st = (st', r) →
  ∃ new,
    invoked st' = invoked st ++ new ∧
    Forall (λ i, is_local self (inv_filter i) = true ∧
                 (∃ k, k ∈ ks ∧ dict_get k d = Some (inv_filter i)) ∧
                 inv_engine i
                 = if bool_decide (type (inv_filter i) = "storlet")
                   then Storlet else Native) new.
Proof.
  induction ks as [|k ks IH]; intros loc st st' r Hrun.
  { injection Hrun as <- <-. exists []. by rewrite app_nil_r. }
  assert (∀ new : list (Invocation Stream),
          Forall (λ i, is_local self (inv_filter i) = true ∧
                 (∃ k, k ∈ ks ∧ dict_get k d = Some (inv_filter i)) ∧
                 inv_engine i
                 = if bool_decide (type (inv_filter i) = "storlet")
                   then Storlet else Native) new →
          Forall (λ i, is_local self (inv_filter i) = true ∧
                 (∃ k0, k0 ∈ k :: ks ∧ dict_get k0 d = Some (inv_filter i)) ∧
                 inv_engine i
                 = if bool_decide (type (inv_filter i) = "storlet")
                   then Storlet else Native) new) as Hweak.
  { intros new Hall. eapply Forall_impl; [exact Hall|].
    intros i (? & (k0 & ? & ?) & ?).
    split_and!; [done| |done]. exists k0. split; [|done].
    by apply list_elem_of_further. }
  apply py_for_cons_inv in Hrun
    as [(st1 & loc1 & Hstep & Hrest)|(e & Hstep & ->)].
  - destruct (IH _ _ _ _ Hrest) as (new & Hnew & Hall).
    apply filter_step_call in Hstep
      as [[-> _]|(fd & res & o' & Hget & Hloc & -> & _)].
    + exists new. auto.
    + exists (mkInvocation
                (if bool_decide (type fd = "storlet") then Storlet else Native)
                fd (cur_app_iter loc) res :: new).
      split; [by rewrite Hnew; cbn [invoked]; rewrite <-app_assoc|].
      constructor; [|auto]. cbn. split_and!; [done| |done].
      exists k. split; [apply list_elem_of_here|done].
  - apply filter_step_call in Hstep
      as [[-> _]|(fd & res & o' & Hget & Hloc & -> & _)].
    + exists []. by rewrite app_nil_r.
    + eexists [_]. split; [done|].
      constructor; [|constructor]. cbn. split_and!; [done| |done].
      exists k. split; [apply list_elem_of_here|done].
Qed.

(** What the engine calls preserve, a run of the loop preserves: the loop
    itself writes nothing to the object. *)
Lemma loop_preserves (P : ReqResp Stream → Prop) :
  (∀ gw o fd it, P o → P (execute_storlet gw o fd it).1) →
  (∀ nf o it rd', P o → P (native_execute nf o it rd').1) →
  ∀ ks loc st st' r,
    py_for ks (filter_step self rd d) loc st = (st', r) →
    P (req_resp st) → P (req_resp st').
Proof.
  intros Hs Hn. induction ks as [|k ks IH]; intros loc st st' r Hrun HP.
  { by injection Hrun as <- <-. }
  assert (∀ lc s s' r0, filter_step self rd d k lc s = (s', r0) →
                        P (req_resp s) → P (req_resp s')) as Hstep1.
  { intros lc s s' r0 Hstep HP0.
    apply filter_step_call in Hstep
      as [[-> _]|(fd & res & o' & _ & _ & -> & Hcall)]; [done|].
    cbn. destruct Hcall as [(_ & gw & _ & Hc)|(_ & nf & _ & Hc)].
    - specialize (Hs gw (req_resp s) fd (cur_app_iter lc) HP0).
      by rewrite Hc in Hs.
    - specialize (Hn nf (req_resp s) (cur_app_iter lc) rd HP0).
      by rewrite Hc in Hn. }
  apply py_for_cons_inv in Hrun
    as [(st1 & loc1 & Hstep & Hrest)|(e & Hstep & ->)]; eauto.
Qed.
End StepFacts.

(** ** More on [execute_filters] *)

Section ExecuteMore.
Context {Stream App : Type} `{E : Engines Stream App}.
Implicit Types (st : @ExecState Stream).

(** A run of [execute_filters] is a run of its loop, followed, when the loop
    returns, by the two writes. *)
Lemma execute_filters_split self d app v a c o m st st' r :
  execute_filters self d app v a c o m st = (st', r) →
  ∃ rd st1 r1,
    py_for (sorted (dict_keys d)) (filter_step self rd d) initial_locals st
    = (st1, r1) ∧
    match r1 with
    | Returned loc =>
        r = Returned tt ∧ invoked st' = invoked st1 ∧
        req_resp st'
        = with_body (filter_executed loc) (cur_app_iter loc)
            (with_delegation (on_other_server loc) (req_resp st1))
    | Raised e => r = Raised e ∧ st' = st1
    end.
Proof.
  unfold execute_filters, execute_filters_loop. unfold py_bind at 1.
  match goal with
  | |- context [py_for ?ks (filter_step self ?rd d) initial_locals st] =>
      destruct (py_for ks (filter_step self rd d) initial_locals st)
        as [st1 [loc|e]] eqn:Hloop; intros Hrun; exists rd
  end.
  - rewrite execute_filters_finish_eq in Hrun. injection Hrun as <- <-.
    by eexists _, (Returned loc).
  - injection Hrun as <- <-. by eexists _, (Raised e).
Qed.

(** X2.  A filter set that holds a local native filter whose entry point has
    no dot is never executed to the end: every run of [execute_filters] on
    it raises (at that filter with [ValueError], unless a collaborator
    raised before). *)
Theorem undotted_native_filter_never_completes
    self d app v a c o m st st' r k fd :
  dict_get k d = Some fd →
  is_local self fd = true →
  type fd ≠ "storlet" →
  dotless (main fd) →
  execute_filters self d app v a c o m st = (st', r) →
  ∃ e, r = Raised e.
Proof.
  intros Hget Hloc Hty Hdot Hrun.
  apply execute_filters_split in Hrun as (rd & st1 & r1 & Hloop & Hr).
  destruct r1 as [loc|e]; [|destruct Hr as [-> _]; eauto].
  exfalso. apply py_for_Returned_steps in Hloop.
  rewrite Forall_forall in Hloop.
  destruct (Hloop k) as (loc1 & s1 & s2 & loc2 & Hstep).
  { rewrite sorted_elem_of. apply dict_get_is_Some. by rewrite Hget. }
  apply filter_step_call in Hstep
    as [[_ Hdel]|(fd' & res & o' & Hget' & _ & _ & Hcall)].
  - destruct (Hdel _ eq_refl) as (fd' & Hget' & Hloc'). congruence.
  - assert (fd' = fd) as -> by congruence.
    destruct Hcall as [[? _]|(_ & nf & Hload & _)]; [done|].
    unfold _load_native_filter in Hload.
    by rewrite rsplit_dot_dotless in Hload.
Qed.

(** The engine calls of a run, whatever its outcome. *)
Lemma execute_filters_calls self d app v a c o m st st' r :
  execute_filters self d app v a c o m st = (st', r) →
  ∃ new,
    invoked st' = invoked st ++ new ∧
    ∀ i, i ∈ new →
         is_local self (inv_filter i) = true ∧
         (∃ k, dict_get k d = Some (inv_filter i)) ∧
         inv_engine i
         = if bool_decide (type (inv_filter i) = "storlet")
           then Storlet else Native.
Proof.
  intros Hrun.
  apply execute_filters_split in Hrun as (rd & st1 & r1 & Hloop & Hr).
  apply loop_calls_dispatch in Hloop as (new & Hnew & Hall).
  exists new. split.
  - destruct r1; [destruct Hr as (_ & -> & _)|destruct Hr as (_ & ->)]; done.
  - intros i Hi. rewrite Forall_forall in Hall.
    destruct (Hall i Hi) as (Hloc & (k & _ & Hk) & Hkind). eauto.
Qed.

(** X3.  On every run, whatever its outcome, each engine call is for a
    filter of the set that belongs to the tier of the controller, and the
    engine is chosen by the type of the filter alone: the storlet gateway
    for type [storlet], the native loader for every other type. *)
Theorem engines_dispatched_by_type self d app v a c o m st st' r :
  execute_filters self d app v a c o m st = (st', r) →
  ∃ new,
    invoked st' = invoked st ++ new ∧
    ∀ i, i ∈ new →
         is_local self (inv_filter i) = true ∧
         (∃ k, dict_get k d = Some (inv_filter i)) ∧
         (inv_engine i = Storlet ↔ type (inv_filter i) = "storlet") ∧
         (inv_engine i = Native ↔ type (inv_filter i) ≠ "storlet").
Proof.
  intros Hrun.
  apply execute_filters_calls in Hrun as (new & Hnew & Hall).
  exists new. split; [done|]. intros i Hi.
  destruct (Hall i Hi) as (Hloc & Hk & Hkind).
  split_and!; [done|done|..]; rewrite Hkind;
    case_bool_decide; split; done.
Qed.

(** X4.  When [execute_filters] raises, the controller itself has written
    nothing to the request or response: whatever the engine calls preserve
    still holds of the object (with engines that leave it alone, it is the
    object as it was, no delegation header and no body written, also for the
    filters met before the failure). *)
Theorem raising_run_writes_nothing (P : ReqResp Stream → Prop)
    self d app v a c o m st st' e :
  (∀ gw ob fd it, P ob → P (execute_storlet gw ob fd it).1) →
  (∀ nf ob it rd, P ob → P (native_execute nf ob it rd).1) →
  execute_filters self d app v a c o m st = (st', Raised e) →
  P (req_resp st) → P (req_resp st').
Proof.
  intros Hs Hn Hrun HP.
  apply execute_filters_split in Hrun as (rd & st1 & r1 & Hloop & Hr).
  destruct r1 as [loc|e1]; [by destruct Hr|]. destruct Hr as [_ ->].
  by eapply (loop_preserves self rd d P).
Qed.

(** With engines that leave the headers alone, a run changes no header but
    [CRYSTAL-FILTERS] and [Content-Length], whatever its outcome. *)
Lemma execute_filters_other_headers self d app v a c o m st st' r name :
  (∀ gw ob fd it, headers (execute_storlet gw ob fd it).1 = headers ob) →
  (∀ nf ob it rd, headers (native_execute nf ob it rd).1 = headers ob) →
  execute_filters self d app v a c o m st = (st', r) →
  name ≠ "CRYSTAL-FILTERS" →
  name ≠ "Content-Length" →
  headers (req_resp st') !! name = headers (req_resp st) !! name.
Proof.
  intros Hs Hn Hrun Hne Hcl.
  apply execute_filters_split in Hrun as (rd & st1 & r1 & Hloop & Hr).
  assert (headers (req_resp st1) = headers (req_resp st)) as Hh.
  { eapply (loop_preserves self rd d
              (λ ob, headers ob = headers (req_resp st))); [..|done|done].
    - intros. by rewrite Hs.
    - intros. by rewrite Hn. }
  destruct r1 as [loc|e1]; [|destruct Hr as [_ ->]; by rewrite Hh].
  destruct Hr as (_ & _ & ->).
  rewrite with_body_header_ne by done. unfold with_delegation.
  destruct (dict_truthy _); [|by rewrite Hh].
  cbn. by rewrite lookup_insert_ne, Hh.
Qed.

(** X5.  The headers after a run that returns, with engines that leave the
    headers alone.  Every header but [CRYSTAL-FILTERS] and [Content-Length]
    is as it was, and so is [CRYSTAL-FILTERS] when every filter of the set
    is local (a delegation header that came with the object stays on it,
    naming filters that have now been executed).  [Content-Length] is as it
    was on a request; on a response it follows the new body: it is as it
    was when no local filter ran or the chain ended with [None], it is the
    total length when the chain ended with a list or tuple of strings, and
    it is removed when the chain ended with any other iterable. *)
Theorem execute_filters_headers_frame self d app v a c o m st st' :
  dict_wf d →
  (∀ gw ob fd it, headers (execute_storlet gw ob fd it).1 = headers ob) →
  (∀ nf ob it rd, headers (native_execute nf ob it rd).1 = headers ob) →
  execute_filters self d app v a c o m st = (st', Returned tt) →
  (∀ name, name ≠ "CRYSTAL-FILTERS" → name ≠ "Content-Length" →
           headers (req_resp st') !! name = headers (req_resp st) !! name) ∧
  (Forall (λ kv, is_local self kv.2 = true) d →
   headers (req_resp st') !! "CRYSTAL-FILTERS"
   = headers (req_resp st) !! "CRYSTAL-FILTERS") ∧
  (is_request (req_resp st) = true →
   headers (req_resp st') !! "Content-Length"
   = headers (req_resp st) !! "Content-Length") ∧
  (is_request (req_resp st) = false →
   ∃ o1 calls out,
     spec_composition self (request_data app v a c o m)
       (local_part self d).*2 None (req_resp st) None
     = (o1, calls, Returned out) ∧
     headers (req_resp st') !! "Content-Length"
     = match local_part self d, out with
       | [], _ | _, None => headers (req_resp st) !! "Content-Length"
       | _ :: _, Some value =>
           match list_length value with
           | Some n => Some (HText (pretty n))
           | None => None
           end
       end).
Proof.
  intros Hwf Hs Hn Hrun. rewrite execute_filters_composition in Hrun by done.
  destruct (spec_composition _ _ _ _ _ _) as [[o1 calls] [out|e]] eqn:Happ;
    [|done].
  injection Hrun as <-. cbn [req_resp].
  assert (headers o1 = headers (req_resp st)) as Hh.
  { eapply (spec_composition_preserves
              (λ ob, headers ob = headers (req_resp st))); [..|done|done].
    - intros. by rewrite Hs.
    - intros. by rewrite Hn. }
  assert (is_request o1 = is_request (req_resp st)) as Hcls
    by (by destruct (spec_composition_calls _ _ _ _ _ _ _ _ _ Happ)
          as (_ & ? & _)).
  assert (∀ name, name ≠ "CRYSTAL-FILTERS" →
            headers (with_delegation (other_part self d) o1) !! name
            = headers (req_resp st) !! name) as Hdel.
  { intros name Hne. unfold with_delegation.
    destruct (dict_truthy _); [|by rewrite Hh].
    cbn. by rewrite lookup_insert_ne, Hh. }
  split_and!.
  - intros name Hn1 Hn2. by rewrite with_body_header_ne, Hdel.
  - intros Hall. rewrite with_body_header_ne by done.
    assert (other_part self d = []) as ->; [|by rewrite <-Hh].
    destruct (other_part self d) as [|[k fd] l] eqn:Ho; [done|].
    assert ((k, fd) ∈ other_part self d) as Hin
      by (rewrite Ho; apply list_elem_of_here).
    apply elem_of_other_part in Hin as [Hget Hloc].
    apply dict_get_Some_elem_of in Hget.
    rewrite Forall_forall in Hall. specialize (Hall _ Hget). simpl in Hall.
    congruence.
  - intros Hreq. rewrite with_body_headers_request, Hdel; [done..|].
    by rewrite with_delegation_is_request, Hcls.
  - intros Hresp. exists o1, calls, out. split; [done|].
    unfold with_body. rewrite with_delegation_is_request, Hcls, Hresp.
    destruct (local_part self d) as [|kv l]; cbn [dict_truthy];
      [by apply Hdel|].
    unfold set_app_iter. cbn [headers].
    destruct out as [value|]; [|by apply Hdel].
    destruct (list_length value).
    + by rewrite lookup_insert_eq.
    + by rewrite lookup_delete_eq.
Qed.

End ExecuteMore.

(** ** The singleton controller *)

(** X6.  The controller is a singleton: once [CrystalFilterControl(conf1,
    log)] has built the instance, every later [CrystalFilterControl(conf2,
    log)] returns that instance and leaves the registry as it is; the
    configuration and the tier of the controller stay those of [conf1],
    whatever [conf2] says. *)
Theorem controller_keeps_first_conf conf1 conf2
    (registry : gmap string CrystalFilterControl) :
  registry !! "CrystalFilterControl" = None →
  ∃ registry1 ctl,
    CrystalFilterControl_call conf1 registry = (registry1, Returned ctl) ∧
    CrystalFilterControl_call conf2 registry1 = (registry1, Returned ctl) ∧
    conf ctl = conf1 ∧
    server ctl = conf1 !! "execution_server" ∧
    ∀ cls, cls ≠ "CrystalFilterControl" → registry1 !! cls = registry !! cls.
Proof.
  intros Hfresh. unfold CrystalFilterControl_call, Singleton_call.
  rewrite Hfresh. eexists _, _. split; [done|].
  rewrite lookup_insert_eq. split_and!; try done.
  intros cls Hne. by rewrite lookup_insert_ne.
Qed.

(** ** The request property and the construction of a handler *)

Section HandlerMore.
Context {Stream App : Type} `{E : Engines Stream App} `{T : Tier Stream App}.
Implicit Types (self : CrystalBaseHandler Stream App).
Implicit Types (hs : HookState Stream App).

(** X7.  The request property keeps its promise on success: a handler that
    [__init__] returns, and a handler after an assignment to [request] that
    returns, holds the request it was given together with the version,
    account, container and object parsed from that request; the assignment
    changes no other attribute. *)
Theorem request_property_ties request conf0 app0 fc self self' :
  (CrystalBaseHandler_init request conf0 app0 fc = Returned self →
   request_getter self = request ∧ tied self ∧
   h_method self = lower (req_method request) ∧
   h_server self = conf0 !! "execution_server" ∧
   filter_control self = fc ∧
   app self = app0 ∧
   h_conf self = conf0) ∧
  (request_setter request self = (self', Returned tt) →
   request_getter self' = request ∧ tied self' ∧
   h_server self' = h_server self ∧
   sds_containers self' = sds_containers self ∧
   filter_control self' = filter_control self ∧
   h_method self' = h_method self ∧
   app self' = app self ∧
   h_conf self' = h_conf self).
Proof.
  split.
  - unfold CrystalBaseHandler_init, tied. rewrite request_setter_eq.
    destruct (_parse_vaco request) as [[[[v a] c] ob]|e] eqn:Hp; [|done].
    intros [= <-]. by cbn.
  - rewrite request_setter_eq. unfold tied.
    destruct (_parse_vaco request) as [[[[v a] c] ob]|e] eqn:Hp; [|done].
    intros [= <-]. by cbn.
Qed.

(** X8.  What goes wrong in the constructor: the construction returns a
    handler exactly when the path grammar returns, with the four attributes
    the grammar gave; it raises [NotCrystalRequest] when the grammar raises
    [ValueError] or an exception of a subclass of it, and raises the
    exception of the grammar itself in every other case. *)
Theorem init_outcome request conf0 app0 fc :
  match _parse_vaco request with
  | Returned vaco =>
      ∃ self, CrystalBaseHandler_init request conf0 app0 fc = Returned self ∧
              (api_version self, account self, container self, obj self)
              = vaco
  | Raised e =>
      CrystalBaseHandler_init request conf0 app0 fc
      = Raised (if isinstance_exc e "ValueError"
                then NotCrystalRequest else e)
  end.
Proof.
  unfold CrystalBaseHandler_init. rewrite request_setter_eq.
  destruct (_parse_vaco request) as [[[[v a] c] ob]|e]; [|done].
  by eexists.
Qed.

(** The truth value of the [and] chain of [is_crystal_valid_request]. *)
Lemma truthy_and_chain self (enabled : bool) :
  truthy (py_and (py_and (PyBool (negb (bool_decide
                            (container self ∈ sds_containers self))))
                         (PyString (obj self)))
                 (PyBool enabled)) = true
  ↔ (container self ∉ sds_containers self) ∧
    (∃ s, obj self = Some s ∧ s ≠ "") ∧ enabled = true.
Proof.
  unfold py_and. case_bool_decide as Hc; simpl.
  { split; [done|]. by intros [? _]. }
  destruct (obj self) as [s|]; simpl.
  2:{ split; [done|]. by intros (_ & (s' & [=] & _) & _). }
  destruct (decide (s = "")) as [->|Hs]; simpl.
  { split; [done|]. by intros (_ & (s' & [= <-] & ?) & _). }
  apply String.eqb_neq in Hs as Hs'. rewrite Hs'. simpl.
  split; [|by intros (_ & _ & ->)].
  intros ->. split_and!; [done| |done]. by exists s.
Qed.

(** X10.  Eligibility on a tier other than the proxy: the account is not
    looked up, the property never raises, and the request is eligible
    exactly when its container is none of the reserved ones and it names an
    object. *)
Theorem valid_request_off_proxy self :
  h_server self ≠ Some "proxy" →
  ∃ v, is_crystal_valid_request self = Returned v ∧
       (truthy v = true ↔
        (container self ∉ sds_containers self) ∧
        (∃ s, obj self = Some s ∧ s ≠ "")).
Proof.
  intros Hsrv. unfold is_crystal_valid_request.
  rewrite bool_decide_eq_false_2 by done. eexists. split; [done|].
  rewrite truthy_and_chain. tauto.
Qed.

(** X11.  Eligibility on the proxy: when the account lookup returns, the
    request is eligible exactly when its container is none of the reserved
    ones, it names an object, and [config_true_value] accepts the
    [storlet-enabled] entry of the account metadata, taken as ['False'] when
    the account has no such entry. *)
Theorem valid_request_on_proxy self meta :
  h_server self = Some "proxy" →
  get_account_info (environ (request_getter self)) (app self)
  = Returned meta →
  ∃ v, is_crystal_valid_request self = Returned v ∧
       (truthy v = true ↔
        (container self ∉ sds_containers self) ∧
        (∃ s, obj self = Some s ∧ s ≠ "") ∧
        config_true_value (default "False" (meta !! "storlet-enabled"))
        = true).
Proof.
  intros Hsrv Hmeta.
  unfold is_crystal_valid_request, is_account_storlet_enabled.
  rewrite bool_decide_eq_true_2, Hmeta by done.
  destruct (config_true_value _) eqn:Hcfg; simpl;
    (eexists; split; [done|]); rewrite truthy_and_chain; naive_solver.
Qed.
End HandlerMore.

(** X9.  The base class is abstract: with the [_parse_vaco] of
    [CrystalBaseHandler] itself, the constructor raises
    [NotImplementedError] for every request; the exception is no
    [ValueError], so it is not turned into [NotCrystalRequest]. *)
Theorem base_class_cannot_be_built {Stream App} (T : Tier Stream App)
    (request : ReqResp Stream) conf0 app0 fc :
  (∀ r, _parse_vaco r = base_parse_vaco r) →
  CrystalBaseHandler_init request conf0 app0 fc = Raised NotImplementedError.
Proof.
  intros Hbase. unfold CrystalBaseHandler_init.
  by rewrite request_setter_eq, Hbase.
Qed.

(** ** More on the hooks *)

(** X18.  The loop at the head of a hook keeps, under their keys, exactly
    the filters registered for the point of the hook. *)
Theorem filtered_filter_list_lookup point d k fd :
  dict_wf d →
  dict_get k (filtered_filter_list point d) = Some fd
  ↔ dict_get k d = Some fd ∧ when fd = point.
Proof.
  intros Hwf. pose proof (filtered_filter_list_wf point d Hwf) as Hwf'.
  split.
  - intros Hget%dict_get_Some_elem_of.
    rewrite filtered_filter_list_filter in Hget by done.
    apply list_elem_of_filter in Hget as [Hw Hin].
    split; [by apply elem_of_dict_get|done].
  - intros [Hget%dict_get_Some_elem_of Hw].
    apply elem_of_dict_get; [done|].
    rewrite filtered_filter_list_filter by done.
    by apply list_elem_of_filter.
Qed.

Section HooksMore.
Context {Stream App : Type} `{E : Engines Stream App} `{T : Tier Stream App}.
Implicit Types (self : CrystalBaseHandler Stream App).
Implicit Types (hs : HookState Stream App).

Lemma with_request_getter self : with_request (request_getter self) self = self.
Proof. by destruct self. Qed.

(** The engine calls a hook has [execute_filters] make are calls for local
    filters registered for the point of the hook. *)
Lemma hook_calls_point point d self target calls o calls' r :
  dict_wf d →
  call_execute_filters self target (filtered_filter_list point d) calls
  = (o, calls', r) →
  ∃ new, calls' = calls ++ new ∧
         ∀ i, i ∈ new →
              when (inv_filter i) = point ∧
              is_local (filter_control self) (inv_filter i) = true.
Proof.
  intros Hwf. unfold call_execute_filters.
  destruct (execute_filters _ _ _ _ _ _ _ _ _) as [st' r'] eqn:Hrun.
  intros [= <- <- <-].
  apply execute_filters_calls in Hrun as (new & Hnew & Hall).
  exists new. split; [done|]. intros i Hi.
  destruct (Hall i Hi) as (Hloc & (k & Hk) & _). split; [|done].
  by apply filtered_filter_list_lookup in Hk as [_ Hw].
Qed.

(** X12.  The two GET hooks never go through the setter of [request]:
    [apply_filters_on_pre_get] changes no attribute of the handler but the
    request it holds (version, account, container and object stay as parsed
    before, whatever the filters did to the request), and
    [apply_filters_on_post_get] leaves the handler as it is; this whatever
    the outcome of the hook. *)
Theorem get_hooks_leave_parsed_fields d hs hs' r resp resp' hs2 r2 :
  (apply_filters_on_pre_get d hs = (hs', r) →
   this hs' = with_request (request_getter (this hs')) (this hs)) ∧
  (apply_filters_on_post_get d (hs, resp) = ((hs2, resp'), r2) →
   this hs2 = this hs).
Proof.
  split.
  - unfold apply_filters_on_pre_get.
    destruct (dict_truthy _).
    + unfold _call_filter_control_on_get_request.
      destruct (call_execute_filters _ _ _ _) as [[o calls] rx].
      by intros [= <- <-].
    + intros [= <- <-]. by rewrite with_request_getter.
  - unfold apply_filters_on_post_get.
    destruct (dict_truthy _).
    + unfold _call_filter_control_on_get_response.
      destruct (call_execute_filters _ _ _ _) as [[o calls] rx].
      by intros [= <- <- <-].
    + by intros [= <- <- <-].
Qed.

(** X13.  A hook never runs a filter registered for another point: whatever
    the outcome, every engine call a hook adds is for a local filter whose
    [when] is the point of the hook. *)
Theorem hooks_run_only_their_point d hs resp :
  dict_wf d →
  (∀ hs' r, apply_filters_on_pre_get d hs = (hs', r) →
     ∃ new, engine_calls hs' = engine_calls hs ++ new ∧
            ∀ i, i ∈ new → when (inv_filter i) = "on_pre_get") ∧
  (∀ hs' resp' r,
     apply_filters_on_post_get d (hs, resp) = ((hs', resp'), r) →
     ∃ new, engine_calls hs' = engine_calls hs ++ new ∧
            ∀ i, i ∈ new → when (inv_filter i) = "on_post_get") ∧
  (∀ hs' r, apply_filters_on_pre_put d hs = (hs', r) →
     ∃ new, engine_calls hs' = engine_calls hs ++ new ∧
            ∀ i, i ∈ new → when (inv_filter i) = "on_pre_put").
Proof.
  intros Hwf.
  assert (∀ hs0 : HookState Stream App,
            ∃ new : list (Invocation Stream),
              engine_calls hs0 = engine_calls hs0 ++ new ∧
              ∀ i, i ∈ new → False) as Hnone.
  { intros hs0. exists []. rewrite app_nil_r. split; [done|].
    by intros i ?%elem_of_nil. }
  split_and!.
  - intros hs' r. unfold apply_filters_on_pre_get.
    destruct (dict_truthy _).
    + unfold _call_filter_control_on_get_request.
      destruct (call_execute_filters _ _ _ _) as [[o calls] rx] eqn:Hcall.
      intros [= <- <-]. cbn.
      apply hook_calls_point in Hcall as (new & -> & Hall); [|done].
      exists new. split; [done|]. intros i Hi. by destruct (Hall i Hi).
    + intros [= <- <-]. destruct (Hnone hs) as (new & ? & ?).
      exists new. naive_solver.
  - intros hs' resp' r. unfold apply_filters_on_post_get.
    destruct (dict_truthy _).
    + unfold _call_filter_control_on_get_response.
      destruct (call_execute_filters _ _ _ _) as [[o calls] rx] eqn:Hcall.
      intros [= <- <- <-]. cbn.
      apply hook_calls_point in Hcall as (new & -> & Hall); [|done].
      exists new. split; [done|]. intros i Hi. by destruct (Hall i Hi).
    + intros [= <- <- <-]. destruct (Hnone hs) as (new & ? & ?).
      exists new. naive_solver.
  - intros hs' r.
    destruct (dict_truthy (filtered_filter_list "on_pre_put" d)) eqn:Hne.
    + rewrite apply_filters_on_pre_put_eq by done.
      destruct (call_execute_filters _ _ _ _) as [[o calls] rx] eqn:Hcall.
      apply hook_calls_point in Hcall as (new & -> & Hall); [|done].
      assert (engine_calls hs' = engine_calls hs ++ new →
              ∃ new0, engine_calls hs' = engine_calls hs ++ new0 ∧
                      ∀ i, i ∈ new0 → when (inv_filter i) = "on_pre_put")
        as Hdone.
      { intros ->. exists new. split; [done|].
        intros i Hi. by destruct (Hall i Hi). }
      destruct rx as [[]|e].
      * destruct (_parse_vaco o) as [vaco|e];
          intros [= <- <-]; by apply Hdone.
      * intros [= <- <-]. by apply Hdone.
    + unfold apply_filters_on_pre_put. rewrite Hne.
      intros [= <- <-]. destruct (Hnone hs) as (new & ? & ?).
      exists new. naive_solver.
Qed.

(** X14.  When [apply_filters_on_pre_put] raises, it has neither removed
    [CONTENT_LENGTH] nor set [Transfer-Encoding]: the handler holds the
    request exactly as [execute_filters] left it.  That is so when a filter
    failed ([execute_filters] raised), and also when the filters ran and
    replaced the body but the request was then rejected by the setter. *)
Theorem pre_put_failure_skips_content_length d hs hs' e :
  apply_filters_on_pre_put d hs = (hs', Raised e) →
  ∃ o calls rx,
    call_execute_filters (this hs) (request_getter (this hs))
      (filtered_filter_list "on_pre_put" d) (engine_calls hs)
    = (o, calls, rx) ∧
    this hs' = with_request o (this hs) ∧
    engine_calls hs' = calls ∧
    (rx = Raised e ∨
     rx = Returned tt ∧
     ∃ e0, _parse_vaco o = Raised e0 ∧
           e = if isinstance_exc e0 "ValueError"
               then NotCrystalRequest else e0).
Proof.
  destruct (dict_truthy (filtered_filter_list "on_pre_put" d)) eqn:Hne.
  2:{ unfold apply_filters_on_pre_put. by rewrite Hne. }
  rewrite apply_filters_on_pre_put_eq by done. unfold request_getter.
  destruct (call_execute_filters _ _ _ _) as [[o calls] [[]|ex]].
  - destruct (_parse_vaco o) as [vaco|e0] eqn:Hp; [done|].
    intros [= <- <-]. exists o, calls, (Returned tt).
    split_and!; try done. right. eauto.
  - intros [= <- <-]. exists o, calls, (Raised ex).
    split_and!; try done. by left.
Qed.

(** X15.  When [apply_filters_on_pre_put] has filters to run and returns,
    the handler holds the version, account, container and object parsed
    from the request as [execute_filters] returned it: the hook goes through
    the setter of [request] (the GET hooks do not), before it removes
    [CONTENT_LENGTH] and sets [Transfer-Encoding]. *)
Theorem pre_put_parses_returned_request d hs hs' :
  dict_truthy (filtered_filter_list "on_pre_put" d) = true →
  apply_filters_on_pre_put d hs = (hs', Returned tt) →
  ∃ o calls,
    call_execute_filters (this hs) (request_getter (this hs))
      (filtered_filter_list "on_pre_put" d) (engine_calls hs)
    = (o, calls, Returned tt) ∧
    _parse_vaco o
    = Returned (api_version (this hs'), account (this hs'),
                container (this hs'), obj (this hs')) ∧
    request_getter (this hs')
    = set_header "Transfer-Encoding" (HText "chunked")
        (pop_environ "CONTENT_LENGTH" o) ∧
    engine_calls hs' = calls.
Proof.
  intros Hne. rewrite apply_filters_on_pre_put_eq by done.
  unfold request_getter.
  destruct (call_execute_filters _ _ _ _) as [[o calls] [[]|ex]]; [|done].
  destruct (_parse_vaco o) as [[[[v a] c] ob]|e0] eqn:Hp; [|done].
  intros [= <-]. by exists o, calls.
Qed.

(** X16.  The hooks do not disturb what the handler reads off the headers:
    with engines that leave the headers alone, [is_range_request] and
    [is_storlet_execution] are after [apply_filters_on_pre_get] and after
    [apply_filters_on_pre_put] what they were before, and
    [is_slo_response] of the response is after [apply_filters_on_post_get]
    what it was before, whatever the outcome of the hook. *)
Theorem hooks_keep_header_predicates d hs resp :
  (∀ gw ob fd it, headers (execute_storlet gw ob fd it).1 = headers ob) →
  (∀ nf ob it rd, headers (native_execute nf ob it rd).1 = headers ob) →
  (∀ hs' r, apply_filters_on_pre_get d hs = (hs', r) →
     is_range_request (this hs') = is_range_request (this hs) ∧
     is_storlet_execution (this hs') = is_storlet_execution (this hs)) ∧
  (∀ hs' r, apply_filters_on_pre_put d hs = (hs', r) →
     is_range_request (this hs') = is_range_request (this hs) ∧
     is_storlet_execution (this hs') = is_storlet_execution (this hs)) ∧
  (∀ hs' resp' r,
     apply_filters_on_post_get d (hs, resp) = ((hs', resp'), r) →
     is_slo_response (this hs') resp' = is_slo_response (this hs) resp).
Proof.
  intros Hs Hn.
  assert (∀ self target fl calls o calls' rx name,
            call_execute_filters self target fl calls = (o, calls', rx) →
            name ≠ "CRYSTAL-FILTERS" →
            name ≠ "Content-Length" →
            headers o !! name = headers target !! name) as Hframe.
  { intros self target fl calls o calls' rx name Hcall Hne Hcl.
    unfold call_execute_filters in Hcall.
    destruct (execute_filters _ _ _ _ _ _ _ _ _) as [st' r'] eqn:Hrun.
    injection Hcall as <- <- <-.
    by rewrite (execute_filters_other_headers _ _ _ _ _ _ _ _ _ _ _ name
                  Hs Hn Hrun Hne Hcl). }
  unfold is_range_request, is_storlet_execution, is_slo_response,
    request_getter.
  split_and!.
  - intros hs' r. unfold apply_filters_on_pre_get.
    destruct (dict_truthy _); [|by intros [= <- <-]].
    unfold _call_filter_control_on_get_request, request_getter.
    destruct (call_execute_filters _ _ _ _) as [[o calls] rx] eqn:Hcall.
    intros [= <- <-]. cbn.
    by rewrite !(Hframe _ _ _ _ _ _ _ _ Hcall).
  - intros hs' r.
    destruct (dict_truthy (filtered_filter_list "on_pre_put" d)) eqn:Hne.
    2:{ unfold apply_filters_on_pre_put. rewrite Hne.
        by intros [= <- <-]. }
    rewrite apply_filters_on_pre_put_eq by done.
    destruct (call_execute_filters _ _ _ _) as [[o calls] rx] eqn:Hcall.
    assert (headers o !! "Range" = headers (_request (this hs)) !! "Range"
            ∧ headers o !! "X-Run-Storlet"
              = headers (_request (this hs)) !! "X-Run-Storlet")
      as [HR HX] by (by rewrite !(Hframe _ _ _ _ _ _ _ _ Hcall)).
    destruct rx as [[]|e].
    + destruct (_parse_vaco o) as [[[[v a] c] ob]|e];
        intros [= <- <-]; cbn; rewrite ?lookup_insert_ne by done;
        by rewrite HR, HX.
    + intros [= <- <-]. cbn. by rewrite HR, HX.
  - intros hs' resp' r. unfold apply_filters_on_post_get.
    destruct (dict_truthy _); [|by intros [= <- <- <-]].
    unfold _call_filter_control_on_get_response.
    destruct (call_execute_filters _ _ _ _) as [[o calls] rx] eqn:Hcall.
    intros [= <- <- <-].
    by rewrite (Hframe _ _ _ _ _ _ _ _ Hcall).
Qed.
End HooksMore.

(** ** The order the dict hands out its entries in *)

Section IterationOrder.
Context {Stream App : Type} `{E : Engines Stream App} `{T : Tier Stream App}.
Implicit Types (hs : HookState Stream App).

Lemma execute_filters_Permutation self d d' app0 v a c o m
    (st : @ExecState Stream) :
  dict_wf d → d' ≡ₚ d →
  execute_filters self d' app0 v a c o m st
  = execute_filters self d app0 v a c o m st.
Proof.
  intros Hwf Hp. unfold execute_filters, execute_filters_loop, py_bind.
  assert (sorted (dict_keys d') = sorted (dict_keys d)) as ->.
  { apply sorted_Permutation_eq. unfold dict_keys. by rewrite Hp. }
  erewrite py_for_ext; [done|].
  intros k loc s _. unfold filter_step.
  by rewrite (dict_get_Permutation d d') by done.
Qed.

Lemma filtered_filter_list_Permutation point d d' :
  dict_wf d → d' ≡ₚ d →
  filtered_filter_list point d' ≡ₚ filtered_filter_list point d.
Proof.
  intros Hwf Hp.
  assert (dict_wf d') as Hwf'.
  { unfold dict_wf, dict_keys in *. by rewrite Hp. }
  rewrite !filtered_filter_list_filter by done. by rewrite Hp.
Qed.

Lemma call_execute_filters_Permutation point d d'
    (self : CrystalBaseHandler Stream App) target calls :
  dict_wf d → d' ≡ₚ d →
  dict_truthy (filtered_filter_list point d')
  = dict_truthy (filtered_filter_list point d) ∧
  call_execute_filters self target (filtered_filter_list point d') calls
  = call_execute_filters self target (filtered_filter_list point d) calls.
Proof.
  intros Hwf Hp.
  pose proof (filtered_filter_list_Permutation point d d' Hwf Hp) as Hf.
  split.
  - apply Permutation_length in Hf.
    by destruct (filtered_filter_list point d'),
                (filtered_filter_list point d).
  - unfold call_execute_filters.
    rewrite (execute_filters_Permutation _ (filtered_filter_list point d)
               (filtered_filter_list point d')); [done|..|done].
    by apply filtered_filter_list_wf.
Qed.

(** X17.  The hooks do not depend on the order in which [filter_list] hands
    out its entries: two dicts with the same entries give the same handler,
    the same response, the same engine calls in the same order and the same
    outcome. *)
Theorem hooks_ignore_iteration_order d d' hs resp :
  dict_wf d → d' ≡ₚ d →
  apply_filters_on_pre_get d' hs = apply_filters_on_pre_get d hs ∧
  apply_filters_on_post_get d' (hs, resp)
  = apply_filters_on_post_get d (hs, resp) ∧
  apply_filters_on_pre_put d' hs = apply_filters_on_pre_put d hs.
Proof.
  intros Hwf Hp. split_and!.
  - unfold apply_filters_on_pre_get.
    destruct (call_execute_filters_Permutation "on_pre_get" d d' (this hs)
                (request_getter (this hs)) (engine_calls hs) Hwf Hp)
      as [-> Hc].
    destruct (dict_truthy _); [|done].
    unfold _call_filter_control_on_get_request. by rewrite Hc.
  - unfold apply_filters_on_post_get.
    destruct (call_execute_filters_Permutation "on_post_get" d d' (this hs)
                resp (engine_calls hs) Hwf Hp) as [-> Hc].
    destruct (dict_truthy _); [|done].
    unfold _call_filter_control_on_get_response. by rewrite Hc.
  - destruct (call_execute_filters_Permutation "on_pre_put" d d' (this hs)
                (request_getter (this hs)) (engine_calls hs) Hwf Hp)
      as [Ht Hc].
    destruct (dict_truthy (filtered_filter_list "on_pre_put" d)) eqn:Hne.
    + rewrite !apply_filters_on_pre_put_eq by done.
      unfold request_getter in Hc. by rewrite Hc.
    + unfold apply_filters_on_pre_put. by rewrite Ht, Hne.
Qed.
End IterationOrder.

(** ** The storlet gateway, built on demand *)

Section GatewayOnDemand.
Context {Stream App : Type} `{E : Engines Stream App}.
Implicit Types (st : @ExecState Stream).

(** X19.  The storlet gateway is built on demand, at the first local
    filter of type [storlet].  With a gateway that cannot be built: a
    filter set without a local storlet is run to its end all the same, its
    native filters loading and returning; and for a set with local storlets, the
    native filters that come before the first of them are run, each once
    and in order, before the run raises the exception of the gateway (or
    the exception of a native filter that failed before that), the object
    being left as those native filters left it. *)
Theorem unbuildable_gateway self d app v a c o m st e0 :
  dict_wf d →
  (∀ cf rd, SDSGatewayStorlet cf rd = Raised e0) →
  ((∀ k fd, dict_get k d = Some fd → is_local self fd = true →
      type fd ≠ "storlet" ∧
      ∃ nf, _load_native_filter self fd = Returned nf ∧
            ∀ ob it, ∃ o' out,
              native_execute nf ob it (request_data app v a c o m)
              = (o', Returned out)) →
   ∃ st', execute_filters self d app v a c o m st = (st', Returned tt)) ∧
  (∀ natives fd rest,
     (local_part self d).*2 = natives ++ fd :: rest →
     Forall (λ f, type f ≠ "storlet") natives →
     type fd = "storlet" →
     ∃ o1 calls res,
       spec_composition self (request_data app v a c o m) natives
         None (req_resp st) None
       = (o1, calls, res) ∧
       Forall (λ i, inv_engine i = Native) calls ∧
       execute_filters self d app v a c o m st
       = ({| req_resp := o1; invoked := invoked st ++ calls |},
          Raised match res with
                 | Returned _ => e0
                 | Raised e => e
                 end)).
Proof.
  intros Hwf Hgw. split.
  - intros Hnat. rewrite execute_filters_composition by done.
    destruct (spec_composition_natives_return self
                (request_data app v a c o m) (local_part self d).*2)
      with (gw := @None Gateway) (o := req_resp st) (it := @None Stream)
      as (o1 & calls & out & ->).
    { apply Forall_forall. intros fd [[k fd'] [-> Hin]]%list_elem_of_fmap.
      apply elem_of_local_part in Hin as [Hget Hloc]. eauto. }
    by eexists.
  - intros natives fd rest Hsplit Hnatives Hty.
    rewrite execute_filters_composition by done. rewrite Hsplit.
    rewrite spec_composition_natives_app by done.
    destruct (spec_composition self (request_data app v a c o m) natives
                None (req_resp st) None) as [[o1 calls] res] eqn:Happ.
    exists o1, calls, res. split; [done|].
    split; [by eapply spec_composition_natives|].
    destruct res as [out|e]; [|done].
    cbn [spec_composition]. unfold spec_engine_run, _setup_storlet_gateway.
    rewrite (bool_decide_eq_true_2 (type fd = "storlet")) by done.
    rewrite Hgw. by rewrite app_nil_r.
Qed.
End GatewayOnDemand.

(** ** Further runs on the sample tier *)

Lemma sample_engine_object fd (o : ReqResp Sample.Stream) it :
  (Sample.engine fd o it).1 = o.
Proof. unfold Sample.engine. by destruct (String.prefix _ _). Qed.

Lemma load_native_filter_split_witness :
  (main Sample.encrypt = ("crypto.aes" ++ String "." "Encrypt")%string ∧
   dotless "Encrypt" ∧
   _load_native_filter Sample.proxy_control Sample.encrypt
   = native_class "crystal_filter_middleware.crypto.aes" "Encrypt"
                  Sample.encrypt (conf Sample.proxy_control)) ∧
  dotless (main SampleMore.undotted) ∧
  ∃ e, _load_native_filter Sample.proxy_control SampleMore.undotted
       = Raised e ∧ isinstance_exc e "ValueError" = true.
Proof.
  assert (dotless "Encrypt") as Hd by compute_done.
  destruct (load_native_filter_split Sample.proxy_control Sample.encrypt)
    as [Hdot _].
  destruct (load_native_filter_split Sample.proxy_control SampleMore.undotted)
    as [_ Hnone].
  split; [split_and!; [done|done|]|split; [done|]].
  - by apply (Hdot "crypto.aes" "Encrypt").
  - by apply Hnone.
Defined.

Lemma undotted_native_filter_never_completes_witness :
  let run := Sample.run SampleMore.with_undotted Sample.st0 in
  dict_get (KInt 2) SampleMore.with_undotted = Some SampleMore.undotted ∧
  is_local Sample.proxy_control SampleMore.undotted = true ∧
  type SampleMore.undotted ≠ "storlet" ∧
  dotless (main SampleMore.undotted) ∧
  length (invoked run.1) = 1 ∧
  ∃ e, run.2 = Raised e.
Proof.
  intros run. split_and!; [done|done|done|compute_done|done|].
  apply (undotted_native_filter_never_completes Sample.proxy_control
           SampleMore.with_undotted tt (Some "v1") (Some "AUTH_a")
           (Some "c") (Some "o") "put" Sample.st0 run.1 run.2
           (KInt 2) SampleMore.undotted); [done|done|done|compute_done|].
  by vm_compute.
Defined.

(** The misspelt type sends the second filter to the native loader. *)
Lemma engines_dispatched_by_type_witness :
  let run := Sample.run SampleMore.typo_scenario Sample.st0 in
  inv_engine <$> invoked run.1 = [Storlet; Native] ∧
  ∃ new,
    invoked run.1 = invoked Sample.st0 ++ new ∧
    ∀ i, i ∈ new →
         is_local Sample.proxy_control (inv_filter i) = true ∧
         (∃ k, dict_get k SampleMore.typo_scenario = Some (inv_filter i)) ∧
         (inv_engine i = Storlet ↔ type (inv_filter i) = "storlet") ∧
         (inv_engine i = Native ↔ type (inv_filter i) ≠ "storlet").
Proof.
  intros run. split; [done|].
  apply (engines_dispatched_by_type Sample.proxy_control
           SampleMore.typo_scenario tt (Some "v1") (Some "AUTH_a")
           (Some "c") (Some "o") "put" Sample.st0 run.1 run.2).
  by vm_compute.
Defined.

(** The filter of the object tier is met before the failure; its header is
    not written. *)
Lemma raising_run_writes_nothing_witness :
  let run := Sample.run SampleMore.late_failure Sample.st0 in
  run.2 = Raised (Sample.RuntimeError "sandbox exited") ∧
  req_resp run.1 = req_resp Sample.st0.
Proof.
  intros run. split; [done|].
  apply (raising_run_writes_nothing (λ o, o = req_resp Sample.st0)
           Sample.proxy_control SampleMore.late_failure tt
           (Some "v1") (Some "AUTH_a") (Some "c") (Some "o") "put"
           Sample.st0 run.1 (Sample.RuntimeError "sandbox exited")).
  - intros gw ob fd it ->. apply sample_engine_object.
  - intros nf ob it rd ->. apply sample_engine_object.
  - by vm_compute.
  - done.
Defined.

(** A response whose length is known, the proxy unzipping it on the way
    back: the length goes, or is that of the new body when the body is a
    list. *)
Lemma execute_filters_headers_frame_witness :
  let st := {| req_resp := SampleMore.sized_response; invoked := [] |} in
  let d := [(KInt 1, SampleMore.gunzip)] in
  let rd := request_data tt (Some "v1") (Some "AUTH_a") (Some "c")
              (Some "o") "put" in
  let run := Sample.run d st in
  let run' := execute_filters (E := SampleMore.listing) Sample.proxy_control
                d tt (Some "v1") (Some "AUTH_a") (Some "c") (Some "o")
                "put" st in
  dict_wf d ∧
  run.2 = Returned tt ∧ run'.2 = Returned tt ∧
  headers (req_resp st) !! "Content-Length" = Some (HText "4") ∧
  headers (req_resp run.1) !! "Content-Length" = None ∧
  headers (req_resp run'.1) !! "Content-Length" = Some (HText "20") ∧
  app_iter (req_resp run'.1) = Some "gunzip-1.0.jar(body)" ∧
  headers (req_resp run.1) !! "X-Static-Large-Object" = Some (HText "True") ∧
  (∀ name, name ≠ "CRYSTAL-FILTERS" → name ≠ "Content-Length" →
           headers (req_resp run.1) !! name = headers (req_resp st) !! name) ∧
  (Forall (λ kv, is_local Sample.proxy_control kv.2 = true) d →
   headers (req_resp run.1) !! "CRYSTAL-FILTERS"
   = headers (req_resp st) !! "CRYSTAL-FILTERS") ∧
  (is_request (req_resp st) = true →
   headers (req_resp run.1) !! "Content-Length"
   = headers (req_resp st) !! "Content-Length") ∧
  (is_request (req_resp st) = false →
   ∃ o1 calls out,
     spec_composition Sample.proxy_control rd
       (local_part Sample.proxy_control d).*2 None (req_resp st) None
     = (o1, calls, Returned out) ∧
     headers (req_resp run.1) !! "Content-Length"
     = match local_part Sample.proxy_control d, out with
       | [], _ | _, None => headers (req_resp st) !! "Content-Length"
       | _ :: _, Some value =>
           match list_length value with
           | Some n => Some (HText (pretty n))
           | None => None
           end
       end).
Proof.
  intros st d rd run run'. split; [compute_done|].
  split; [done|]. split; [done|]. split; [done|]. split; [done|].
  split; [done|]. split; [done|]. split; [done|].
  apply (execute_filters_headers_frame Sample.proxy_control d tt
           (Some "v1") (Some "AUTH_a") (Some "c") (Some "o") "put"
           st run.1).
  - compute_done.
  - intros gw ob fd it. cbn. by rewrite sample_engine_object.
  - intros nf ob it rd0. cbn. by rewrite sample_engine_object.
  - by vm_compute.
Defined.

Lemma controller_keeps_first_conf_witness :
  (∅ : gmap string CrystalFilterControl) !! "CrystalFilterControl" = None ∧
  ∃ registry1 ctl,
    CrystalFilterControl_call Sample.proxy_conf ∅ = (registry1, Returned ctl) ∧
    CrystalFilterControl_call {[ "execution_server" := "object" ]} registry1
    = (registry1, Returned ctl) ∧
    conf ctl = Sample.proxy_conf ∧
    server ctl = Sample.proxy_conf !! "execution_server" ∧
    ∀ cls, cls ≠ "CrystalFilterControl" →
           registry1 !! cls = (∅ : gmap string CrystalFilterControl) !! cls.
Proof.
  split; [done|].
  by apply (controller_keeps_first_conf Sample.proxy_conf
              {[ "execution_server" := "object" ]} ∅).
Defined.

Lemma request_property_ties_witness :
  CrystalBaseHandler_init (Sample.put_request "/v1/AUTH_a/c/o")
    Sample.proxy_conf tt Sample.proxy_control = Returned Sample.handler0 ∧
  tied Sample.handler0 ∧
  let self' := (request_setter (Sample.put_request "/v1/AUTH_b/c2/o2")
                               Sample.handler0).1 in
  tied self' ∧ account self' = Some "AUTH_b" ∧
  filter_control self' = filter_control Sample.handler0.
Proof.
  assert (CrystalBaseHandler_init (Sample.put_request "/v1/AUTH_a/c/o")
            Sample.proxy_conf tt Sample.proxy_control
          = Returned Sample.handler0) as Hinit by (by vm_compute).
  split; [done|].
  destruct (request_property_ties (Sample.put_request "/v1/AUTH_a/c/o")
              Sample.proxy_conf tt Sample.proxy_control Sample.handler0
              Sample.handler0) as [H1 _].
  split; [by apply H1|].
  destruct (request_property_ties (Sample.put_request "/v1/AUTH_b/c2/o2")
              Sample.proxy_conf tt Sample.proxy_control Sample.handler0
              (request_setter (Sample.put_request "/v1/AUTH_b/c2/o2")
                 Sample.handler0).1) as [_ H2].
  destruct H2 as (_ & Ht & _ & _ & Hfc & _); [by vm_compute|].
  by split_and!.
Defined.

Lemma base_class_cannot_be_built_witness :
  (∀ r : ReqResp Sample.Stream,
     @_parse_vaco _ _ SampleMore.base_tier r = base_parse_vaco r) ∧
  @CrystalBaseHandler_init _ _ SampleMore.base_tier
    (Sample.put_request "/v1/AUTH_a/c/o") Sample.proxy_conf tt
    Sample.proxy_control
  = Raised NotImplementedError.
Proof.
  split; [done|].
  by apply (base_class_cannot_be_built SampleMore.base_tier).
Defined.

Lemma valid_request_off_proxy_witness :
  h_server SampleMore.object_handler ≠ Some "proxy" ∧
  is_crystal_valid_request SampleMore.object_handler = Returned (PyBool true) ∧
  ∃ v, is_crystal_valid_request SampleMore.object_handler = Returned v ∧
       (truthy v = true ↔
        (container SampleMore.object_handler
           ∉ sds_containers SampleMore.object_handler) ∧
        (∃ s, obj SampleMore.object_handler = Some s ∧ s ≠ "")).
Proof.
  split; [done|]. split; [done|].
  by apply (valid_request_off_proxy SampleMore.object_handler).
Defined.

Lemma valid_request_on_proxy_witness :
  let meta : gmap string string := {[ "storlet-enabled" := "True" ]} in
  h_server Sample.handler0 = Some "proxy" ∧
  get_account_info (environ (request_getter Sample.handler0))
                   (app Sample.handler0) = Returned meta ∧
  ∃ v, is_crystal_valid_request Sample.handler0 = Returned v ∧
       (truthy v = true ↔
        (container Sample.handler0 ∉ sds_containers Sample.handler0) ∧
        (∃ s, obj Sample.handler0 = Some s ∧ s ≠ "") ∧
        config_true_value (default "False" (meta !! "storlet-enabled"))
        = true).
Proof.
  intros meta. split; [done|]. split; [done|].
  by apply (valid_request_on_proxy Sample.handler0 meta).
Defined.

Lemma filtered_filter_list_lookup_witness :
  dict_wf SampleMore.get_filters ∧
  (dict_get (KInt 2)
     (filtered_filter_list "on_post_get" SampleMore.get_filters)
   = Some (mkFilter "proxy" "storlet" "gunzip-1.0.jar" "on_post_get")
   ↔ dict_get (KInt 2) SampleMore.get_filters
     = Some (mkFilter "proxy" "storlet" "gunzip-1.0.jar" "on_post_get") ∧
     when (mkFilter "proxy" "storlet" "gunzip-1.0.jar" "on_post_get")
     = "on_post_get").
Proof.
  split; [compute_done|].
  apply (filtered_filter_list_lookup "on_post_get" SampleMore.get_filters).
  compute_done.
Defined.

(** A GET with one filter before the read and two after it. *)
Lemma get_hooks_leave_parsed_fields_witness :
  let pre := apply_filters_on_pre_get SampleMore.get_filters
               SampleMore.ranged_hs in
  let post := apply_filters_on_post_get SampleMore.get_filters
                (SampleMore.ranged_hs, Sample.get_response) in
  pre.2 = Returned tt ∧ post.2 = Returned tt ∧
  this pre.1 = with_request (request_getter (this pre.1))
                            (this SampleMore.ranged_hs) ∧
  this post.1.1 = this SampleMore.ranged_hs.
Proof.
  intros pre post. split; [done|]. split; [done|].
  destruct (get_hooks_leave_parsed_fields SampleMore.get_filters
              SampleMore.ranged_hs pre.1 pre.2 Sample.get_response
              post.1.2 post.1.1 post.2) as [Hpre Hpost].
  split; [apply Hpre|apply Hpost]; by vm_compute.
Defined.

Lemma hooks_run_only_their_point_witness :
  let post := apply_filters_on_post_get SampleMore.get_filters
                (SampleMore.ranged_hs, Sample.get_response) in
  dict_wf SampleMore.get_filters ∧
  main ∘ inv_filter <$> engine_calls post.1.1 = ["gunzip-1.0.jar"] ∧
  ∃ new, engine_calls post.1.1 = engine_calls SampleMore.ranged_hs ++ new ∧
         ∀ i, i ∈ new → when (inv_filter i) = "on_post_get".
Proof.
  intros post. split; [compute_done|]. split; [done|].
  destruct (hooks_run_only_their_point SampleMore.get_filters
              SampleMore.ranged_hs Sample.get_response)
    as (_ & Hpost & _); [compute_done|].
  apply (Hpost post.1.1 post.1.2 post.2). by vm_compute.
Defined.

(** The second filter fails in its sandbox: the content length stays. *)
Lemma pre_put_failure_skips_content_length_witness :
  let d := [(KInt 1, Sample.compress); (KInt 2, Sample.broken)] in
  let run := apply_filters_on_pre_put d Sample.hs0 in
  run.2 = Raised (Sample.RuntimeError "sandbox exited") ∧
  environ (request_getter (this run.1)) !! "CONTENT_LENGTH"
  = Some (EnvStr "1024") ∧
  ∃ o calls rx,
    call_execute_filters (this Sample.hs0) (request_getter (this Sample.hs0))
      (filtered_filter_list "on_pre_put" d) (engine_calls Sample.hs0)
    = (o, calls, rx) ∧
    this run.1 = with_request o (this Sample.hs0) ∧
    engine_calls run.1 = calls ∧
    (rx = Raised (Sample.RuntimeError "sandbox exited") ∨
     rx = Returned tt ∧
     ∃ e0, _parse_vaco o = Raised e0 ∧
           Sample.RuntimeError "sandbox exited"
           = if isinstance_exc e0 "ValueError"
             then NotCrystalRequest else e0).
Proof.
  intros d run. split; [done|]. split; [done|].
  apply (pre_put_failure_skips_content_length d Sample.hs0 run.1).
  by vm_compute.
Defined.

Lemma pre_put_parses_returned_request_witness :
  let run := apply_filters_on_pre_put Sample.scenario Sample.hs0 in
  dict_truthy (filtered_filter_list "on_pre_put" Sample.scenario) = true ∧
  run.2 = Returned tt ∧
  ∃ o calls,
    call_execute_filters (this Sample.hs0) (request_getter (this Sample.hs0))
      (filtered_filter_list "on_pre_put" Sample.scenario)
      (engine_calls Sample.hs0)
    = (o, calls, Returned tt) ∧
    _parse_vaco o
    = Returned (api_version (this run.1), account (this run.1),
                container (this run.1), obj (this run.1)) ∧
    request_getter (this run.1)
    = set_header "Transfer-Encoding" (HText "chunked")
        (pop_environ "CONTENT_LENGTH" o) ∧
    engine_calls run.1 = calls.
Proof.
  intros run. split; [done|]. split; [done|].
  apply (pre_put_parses_returned_request Sample.scenario Sample.hs0 run.1);
    [done|by vm_compute].
Defined.

Lemma hooks_keep_header_predicates_witness :
  let pre := apply_filters_on_pre_get SampleMore.get_filters
               SampleMore.ranged_hs in
  length (engine_calls pre.1) = 1 ∧
  is_range_request (this SampleMore.ranged_hs) = true ∧
  is_range_request (this pre.1) = is_range_request (this SampleMore.ranged_hs) ∧
  is_storlet_execution (this pre.1)
  = is_storlet_execution (this SampleMore.ranged_hs).
Proof.
  intros pre. split; [done|]. split; [done|].
  destruct (hooks_keep_header_predicates SampleMore.get_filters
              SampleMore.ranged_hs Sample.get_response) as (Hpre & _ & _).
  - intros gw ob fd it. cbn. by rewrite sample_engine_object.
  - intros nf ob it rd. cbn. by rewrite sample_engine_object.
  - apply (Hpre pre.1 pre.2). by vm_compute.
Defined.

Lemma hooks_ignore_iteration_order_witness :
  dict_wf Sample.scenario ∧
  reverse Sample.scenario ≡ₚ Sample.scenario ∧
  apply_filters_on_pre_get (reverse Sample.scenario) Sample.hs0
  = apply_filters_on_pre_get Sample.scenario Sample.hs0 ∧
  apply_filters_on_post_get (reverse Sample.scenario)
    (Sample.hs0, Sample.get_response)
  = apply_filters_on_post_get Sample.scenario
      (Sample.hs0, Sample.get_response) ∧
  apply_filters_on_pre_put (reverse Sample.scenario) Sample.hs0
  = apply_filters_on_pre_put Sample.scenario Sample.hs0.
Proof.
  split; [compute_done|]. split; [apply reverse_Permutation|].
  apply (hooks_ignore_iteration_order Sample.scenario
           (reverse Sample.scenario) Sample.hs0 Sample.get_response).
  - compute_done.
  - apply reverse_Permutation.
Defined.

(** Without the gateway, [encrypt] runs and [compress] does not; [encrypt]
    alone runs to its end. *)
Lemma unbuildable_gateway_witness :
  let d := [(KInt 1, Sample.encrypt); (KInt 2, Sample.compress)] in
  let d1 := [(KInt 1, Sample.encrypt)] in
  let e0 := Sample.RuntimeError "no docker daemon" in
  let rd := request_data tt (Some "v1") (Some "AUTH_a") (Some "c")
              (Some "o") "put" in
  let run d := execute_filters (E := SampleMore.no_gateway)
                 Sample.proxy_control d tt
                 (Some "v1") (Some "AUTH_a") (Some "c") (Some "o") "put"
                 Sample.st0 in
  (dict_wf d ∧ dict_wf d1) ∧
  (∀ cf rd, SDSGatewayStorlet (Engines := SampleMore.no_gateway) cf rd
            = Raised e0) ∧
  (∀ k fd, dict_get k d1 = Some fd →
     is_local Sample.proxy_control fd = true →
     type fd ≠ "storlet" ∧
     ∃ nf, _load_native_filter (E := SampleMore.no_gateway)
             Sample.proxy_control fd = Returned nf ∧
           ∀ ob it, ∃ o' out,
             native_execute (Engines := SampleMore.no_gateway) nf ob it rd
             = (o', Returned out)) ∧
  ((local_part Sample.proxy_control d).*2
   = [Sample.encrypt] ++ Sample.compress :: [] ∧
   Forall (λ f, type f ≠ "storlet") [Sample.encrypt] ∧
   type Sample.compress = "storlet") ∧
  (∃ st', run d1 = (st', Returned tt)) ∧
  run d = ({| req_resp := req_resp Sample.st0;
              invoked := [mkInvocation Native Sample.encrypt None
                            (Returned (Some "crypto.aes.Encrypt(body)"))] |},
           Raised e0) ∧
  ∃ o1 calls res,
    spec_composition (E := SampleMore.no_gateway) Sample.proxy_control rd
      [Sample.encrypt] None (req_resp Sample.st0) None
    = (o1, calls, res) ∧
    Forall (λ i, inv_engine i = Native) calls ∧
    run d = ({| req_resp := o1; invoked := invoked Sample.st0 ++ calls |},
             Raised match res with
                    | Returned _ => e0
                    | Raised e => e
                    end).
Proof.
  intros d d1 e0 rd run.
  assert (Forall (λ f, type f ≠ "storlet") [Sample.encrypt]) as Hnat
    by (by repeat constructor).
  assert (∀ k fd, dict_get k d1 = Some fd →
            is_local Sample.proxy_control fd = true →
            type fd ≠ "storlet" ∧
            ∃ nf, _load_native_filter (E := SampleMore.no_gateway)
                    Sample.proxy_control fd = Returned nf ∧
                  ∀ ob it, ∃ o' out,
                    native_execute (Engines := SampleMore.no_gateway)
                      nf ob it rd
                    = (o', Returned out)) as Hloads.
  { intros k fd Hget _. cbn in Hget. case_decide; [|done].
    injection Hget as <-. split; [done|]. eexists. split; [done|].
    intros ob it. by eexists _, _. }
  split; [split; compute_done|]. split; [done|]. split; [exact Hloads|].
  split; [by split_and!; [vm_compute|..]|].
  split.
  { destruct (unbuildable_gateway (E := SampleMore.no_gateway)
                Sample.proxy_control d1 tt
                (Some "v1") (Some "AUTH_a") (Some "c") (Some "o") "put"
                Sample.st0 e0) as [Hreturns _]; [compute_done|done|].
    by apply Hreturns. }
  split; [by vm_compute|].
  destruct (unbuildable_gateway (E := SampleMore.no_gateway)
              Sample.proxy_control d tt
              (Some "v1") (Some "AUTH_a") (Some "c") (Some "o") "put"
              Sample.st0 e0) as [_ Hraise]; [compute_done|done|].
  apply (Hraise [Sample.encrypt] Sample.compress []);
    [by vm_compute|done|done].
Defined.
